(** * A shallow embedding of the presence and routing hub

    The development follows [app/models.py], [app/websocket_manager.py]
    and the [websocket_endpoint] loop of [app/main.py].

    - Python dictionaries are [gmap]s keyed by strings; [d.get(k)] is the
      lookup [d !! k], [del d[k]] guarded by [k in d] is [delete].
    - Decoded JSON is an inductive type; Python floats are the binary64
      primitive floats.
    - The manager is explicit state; the transport is a part of the world:
      a script of outcomes, one per [send_text] call, and the log of every
      attempted send.  Logging calls are not modelled.
    - A coroutine runs to completion before the next one starts. *)

From Stdlib Require Import Floats.
From stdpp Require Import gmap strings list fin_maps.

Set Warnings "-register-all".

(** ** Decoded JSON *)

Inductive json : Type :=
| JNull
| JBool (b : bool)
| JInt (z : Z)
| JFloat (f : float)
| JStr (s : string)
| JArr (l : list json)
| JObj (l : list (string * json)).

(** Truth value of a string: [bool(s)]. *)
Definition str_truthy (s : string) : bool :=
  match s with
  | EmptyString => false
  | String _ _ => true
  end.

(** Truth value of a decoded JSON value: [bool(v)]. *)
Definition truthy (v : json) : bool :=
  match v with
  | JNull => false
  | JBool b => b
  | JInt z => negb (z =? 0)%Z
  | JFloat f => negb (PrimFloat.eqb f 0%float)
  | JStr s => str_truthy s
  | JArr l => match l with [] => false | _ :: _ => true end
  | JObj l => match l with [] => false | _ :: _ => true end
  end.

(** Truth value of the result of [d.get(k)]: [None] is false. *)
Definition opt_truthy (o : option string) : bool :=
  match o with
  | Some s => str_truthy s
  | None => false
  end.

Definition get_truthy (o : option json) : bool :=
  match o with
  | Some v => truthy v
  | None => false
  end.

(** [d.get(k)] of a key that may be missing, as a JSON value. *)
Definition py_get (o : option json) : json :=
  match o with
  | Some v => v
  | None => JNull
  end.

(** ** models.py *)

Module User.
Record t : Type := mk { id : string; username : string; socket_id : string }.
End User.

Module Room.
Record t : Type := mk { room_id : string; users : list User.t }.
End Room.

(** ** The transport *)

(** A transport handle; the manager only stores it and sends through it. *)
Record WebSocket : Type := { ws_handle : nat }.

(** One attempted [send_text]: the connection the handle belongs to, the
    message given to [json.dumps], and whether the call returned (true) or
    raised (false). *)
Record Delivery : Type :=
  { to_socket : string; payload : json; delivered : bool }.

(** ** websocket_manager.py: the manager state *)

Record ConnectionManager : Type :=
  { rooms : gmap string Room.t;
    active_connections : gmap string WebSocket;
    user_sockets : gmap string string;
    socket_users : gmap string string;
    socket_rooms : gmap string string }.

(** [ConnectionManager.__init__] *)
Definition manager : ConnectionManager :=
  {| rooms := ∅; active_connections := ∅; user_sockets := ∅;
     socket_users := ∅; socket_rooms := ∅ |}.

Definition set_rooms (f : gmap string Room.t → gmap string Room.t)
    (m : ConnectionManager) : ConnectionManager :=
  {| rooms := f (rooms m);
     active_connections := active_connections m;
     user_sockets := user_sockets m;
     socket_users := socket_users m;
     socket_rooms := socket_rooms m |}.

(** ** The world and its state monad *)

Record World : Type :=
  { mgr : ConnectionManager; wire : list bool; sent : list Delivery }.

Definition initial (script : list bool) : World :=
  {| mgr := manager; wire := script; sent := [] |}.

Definition M (A : Type) : Type := World → A * World.

Definition ret {A} (a : A) : M A := λ w, (a, w).

Definition bnd {A B} (c : M A) (k : A → M B) : M B :=
  λ w, let '(a, w1) := c w in k a w1.

Notation "'let*' x ':=' c 'in' k" := (bnd c (λ x, k))
  (at level 10, x name, c at level 200, k at level 200, only parsing).

Definition exec {A} (c : M A) (w : World) : World := snd (c w).
Definition eval {A} (c : M A) (w : World) : A := fst (c w).

(** Read the manager. *)
Definition the_manager : M ConnectionManager := λ w, (mgr w, w).

(** Run a pure update of the manager. *)
Definition update (f : ConnectionManager → ConnectionManager) : M unit :=
  λ w, (tt, {| mgr := f (mgr w); wire := wire w; sent := sent w |}).

(** [await websocket.send_text(json.dumps(message))] on the handle of
    connection [sid].  The next entry of the script decides whether the
    call returns or raises; an exhausted script means a healthy transport. *)
Definition send_text (sid : string) (websocket : WebSocket) (message : json)
    : M bool :=
  λ w, let ok := match wire w with [] => true | b :: _ => b end in
       (ok, {| mgr := mgr w;
               wire := tail (wire w);
               sent := sent w ++
                 [{| to_socket := sid; payload := message; delivered := ok |}] |}).

(** ** websocket_manager.py: the operations *)

(** [connect]: register the accepted handle. *)
Definition connect (websocket : WebSocket) (socket_id : string) : M unit :=
  update (λ m,
    {| rooms := rooms m;
       active_connections := <[socket_id := websocket]> (active_connections m);
       user_sockets := user_sockets m;
       socket_users := socket_users m;
       socket_rooms := socket_rooms m |}).

(** [disconnect]: forget the connection and its identity and room entries.
    The room directory is not touched. *)
Definition disconnect (socket_id : string) (m : ConnectionManager)
    : ConnectionManager :=
  let username := socket_users m !! socket_id in
  {| rooms := rooms m;
     active_connections := delete socket_id (active_connections m);
     user_sockets :=
       match username with
       | Some u => if str_truthy u then delete u (user_sockets m)
                   else user_sockets m
       | None => user_sockets m
       end;
     socket_users :=
       if opt_truthy username then delete socket_id (socket_users m)
       else socket_users m;
     socket_rooms := delete socket_id (socket_rooms m) |}.

(** [join_room], "Store user mappings": release the name this connection
    had before when it differs, then let the new name point at it. *)
Definition join_room_bind (socket_id room_id username : string)
    (m : ConnectionManager) : ConnectionManager :=
  let old_username := socket_users m !! socket_id in
  let released :=
    match old_username with
    | Some old =>
        if str_truthy old && bool_decide (old ≠ username)
        then delete old (user_sockets m)
        else user_sockets m
    | None => user_sockets m
    end in
  {| rooms := rooms m;
     active_connections := active_connections m;
     user_sockets := <[username := socket_id]> released;
     socket_users := <[socket_id := username]> (socket_users m);
     socket_rooms := <[socket_id := room_id]> (socket_rooms m) |}.

(** [join_room], "Create room if it doesn't exist" to "Add new user". *)
Definition join_room_add_member (socket_id room_id username : string)
    (m : ConnectionManager) : ConnectionManager :=
  let room := default (Room.mk room_id []) (rooms m !! room_id) in
  let kept :=
    filter (λ u, User.id u ≠ socket_id ∧ User.username u ≠ username)
           (Room.users room) in
  let user := User.mk socket_id username socket_id in
  set_rooms (<[room_id := Room.mk (Room.room_id room) (kept ++ [user])]>) m.

(** The loop of [broadcast_to_room] over the member list; the accumulator
    is [disconnected_sockets]. *)
Fixpoint broadcast_loop (message : json) (exclude_socket : option string)
    (members : list User.t) (disconnected_sockets : list string)
    : M (list string) :=
  match members with
  | [] => ret disconnected_sockets
  | user :: rest =>
      if bool_decide (Some (User.socket_id user) ≠ exclude_socket) then
        let* m := the_manager in
        match active_connections m !! User.socket_id user with
        | Some websocket =>
            let* ok := send_text (User.socket_id user) websocket message in
            broadcast_loop message exclude_socket rest
              (if ok then disconnected_sockets
               else disconnected_sockets ++ [User.socket_id user])
        | None =>
            broadcast_loop message exclude_socket rest
              (disconnected_sockets ++ [User.socket_id user])
        end
      else broadcast_loop message exclude_socket rest disconnected_sockets
  end.

(** "Clean up disconnected sockets" *)
Definition reap_all (disconnected_sockets : list string)
    (m : ConnectionManager) : ConnectionManager :=
  foldl (λ acc socket_id, disconnect socket_id acc) m disconnected_sockets.

Definition broadcast_to_room (room_id : string) (message : json)
    (exclude_socket : option string) : M unit :=
  let* m := the_manager in
  match rooms m !! room_id with
  | None => ret tt
  | Some room =>
      let* disconnected_sockets :=
        broadcast_loop message exclude_socket (Room.users room) [] in
      update (reap_all disconnected_sockets)
  end.

Definition user_entry (u : User.t) : json :=
  JObj [("username", JStr (User.username u)); ("id", JStr (User.id u))].

Definition online_users (members : list User.t) : json :=
  JObj [("type", JStr "online_users"); ("users", JArr (user_entry <$> members))].

Definition send_user_list (room_id : string) : M unit :=
  let* m := the_manager in
  match rooms m !! room_id with
  | Some room => broadcast_to_room room_id (online_users (Room.users room)) None
  | None => ret tt
  end.

(** [get_room_users] *)
Definition get_room_users (m : ConnectionManager) (room_id : string)
    : list json :=
  match rooms m !! room_id with
  | Some room => user_entry <$> Room.users room
  | None => []
  end.

Definition user_joined (username : string) : json :=
  JObj [("type", JStr "user_joined"); ("username", JStr username);
        ("message", JStr (username +:+ " has joined the room!"))].

Definition user_left (username : string) : json :=
  JObj [("type", JStr "user_left"); ("username", JStr username);
        ("message", JStr (username +:+ " has left the room!"))].

Definition join_room (socket_id room_id username : string) : M unit :=
  let* _ := update (join_room_bind socket_id room_id username) in
  let* _ := update (join_room_add_member socket_id room_id username) in
  let* _ := broadcast_to_room room_id (user_joined username) (Some socket_id) in
  send_user_list room_id.

Definition leave_room (socket_id room_id : string) : M unit :=
  let* m := the_manager in
  match rooms m !! room_id with
  | None => ret tt
  | Some room =>
      let username := socket_users m !! socket_id in
      let initial_count := length (Room.users room) in
      let remaining := filter (λ u, User.id u ≠ socket_id) (Room.users room) in
      let* _ := update (set_rooms
                  (<[room_id := Room.mk (Room.room_id room) remaining]>)) in
      let* _ :=
        if bool_decide (length remaining < initial_count) && opt_truthy username
        then broadcast_to_room room_id (user_left (default "" username)) None
        else ret tt in
      let* _ := send_user_list room_id in
      match remaining with
      | [] => update (set_rooms (delete room_id))
      | _ :: _ => ret tt
      end
  end.

Definition send_personal_message (socket_id : string) (message : json)
    : M bool :=
  let* m := the_manager in
  match active_connections m !! socket_id with
  | Some websocket =>
      let* ok := send_text socket_id websocket message in
      if ok then ret true
      else let* _ := update (disconnect socket_id) in ret false
  | None => ret false
  end.

Definition send_to_user (username : string) (message : json) : M bool :=
  let* m := the_manager in
  match user_sockets m !! username with
  | Some socket_id =>
      if str_truthy socket_id then send_personal_message socket_id message
      else ret false
  | None => ret false
  end.

(** ** main.py: the endpoint *)

(** A decoded inbound message, by its [type].  The identity fields
    ([username], [sender], [target]) are strings or missing, as the
    manager's signatures declare them; the other fields are whatever JSON
    the client sent, [None] when the key is missing. *)
Inductive event : Type :=
| join_room_event (username : option string)
| chat_message (username : option string) (message timestamp : option json)
| webrtc_signal (sender target : option string) (data : option json)
| file_transfer_request (sender target : option string)
    (filename file_size file_type : option json)
| file_transfer_response (sender target : option string)
    (accepted filename : option json)
| unknown_event.

(** How one turn of the receive loop ends: the loop goes on, or an
    exception leaves the [try] block. *)
Inductive flow : Type := Continue | Raise.

(** The value of an identity field that the guard found present. *)
Definition the (o : option string) : string := default "" o.

(** [await websocket.send_text(json.dumps(message))] in the endpoint, on the
    connection's own handle: a failed send raises out of the loop. *)
Definition reply (websocket : WebSocket) (socket_id : string) (message : json)
    : M flow :=
  let* ok := send_text socket_id websocket message in
  ret (if ok then Continue else Raise).

Definition join_success (room_id socket_id : string) : json :=
  JObj [("type", JStr "join_success"); ("room_id", JStr room_id);
        ("socket_id", JStr socket_id)].

Definition new_message (username : string) (message timestamp : json) : json :=
  JObj [("type", JStr "new_message"); ("username", JStr username);
        ("message", message); ("timestamp", timestamp)].

Definition error_notice (text : string) : json :=
  JObj [("type", JStr "error"); ("message", JStr text)].

Definition signal_envelope (sender : string) (data : json) : json :=
  JObj [("type", JStr "webrtc_signal"); ("sender", JStr sender); ("data", data)].

Definition transfer_request (sender : string) (filename file_size file_type : json)
    : json :=
  JObj [("type", JStr "file_transfer_request"); ("sender", JStr sender);
        ("filename", filename); ("file_size", file_size);
        ("file_type", file_type)].

Definition transfer_response (sender : string) (accepted filename : json) : json :=
  JObj [("type", JStr "file_transfer_response"); ("sender", JStr sender);
        ("accepted", accepted); ("filename", filename)].

(** [isinstance(v, (int, float))]; [bool] is a subclass of [int]. *)
Definition is_int_or_float (v : json) : bool :=
  match v with
  | JBool _ | JInt _ | JFloat _ => true
  | _ => false
  end.

(** [v < 0] for a value that passed [isinstance(v, (int, float))]. *)
Definition below_zero (v : json) : bool :=
  match v with
  | JInt z => bool_decide (z < 0)%Z
  | JFloat f => PrimFloat.ltb f 0%float
  | _ => false
  end.

(** "Ensure file_size is a valid number" *)
Definition normalize_file_size (file_size : json) : json :=
  if negb (is_int_or_float file_size) || below_zero file_size
  then JInt 0 else file_size.

(** The body of the [while True] loop for one received message. *)
Definition handle_event (websocket : WebSocket) (socket_id room_id : string)
    (ev : event) : M flow :=
  match ev with
  | join_room_event username =>
      if opt_truthy username then
        let* _ := join_room socket_id room_id (the username) in
        reply websocket socket_id (join_success room_id socket_id)
      else ret Continue
  | chat_message username message timestamp =>
      if opt_truthy username && get_truthy message then
        let* _ := broadcast_to_room room_id
                    (new_message (the username) (py_get message) (py_get timestamp))
                    None in
        ret Continue
      else ret Continue
  | webrtc_signal sender target signal_data =>
      match signal_data with
      | Some (JObj _) =>
          if opt_truthy sender && opt_truthy target && get_truthy signal_data then
            let* success := send_to_user (the target)
                              (signal_envelope (the sender) (py_get signal_data)) in
            if success then ret Continue
            else reply websocket socket_id
                   (error_notice ("Failed to deliver WebRTC signal to " +:+ the target))
          else ret Continue
      | _ => ret Raise
      end
  | file_transfer_request sender target filename file_size file_type =>
      if negb (opt_truthy sender && opt_truthy target) then
        reply websocket socket_id (error_notice "Invalid file transfer request")
      else
        let file_size := normalize_file_size (py_get file_size) in
        let* success := send_to_user (the target)
                          (transfer_request (the sender)
                             (if get_truthy filename then py_get filename
                              else JStr "Unknown file")
                             file_size
                             (default (JStr "application/octet-stream") file_type)) in
        if success then ret Continue
        else reply websocket socket_id
               (error_notice ("User " +:+ the target +:+ " is not available"))
  | file_transfer_response sender target accepted filename =>
      if opt_truthy sender && opt_truthy target then
        let* success := send_to_user (the target)
                          (transfer_response (the sender) (py_get accepted)
                             (default (JStr "Unknown file") filename)) in
        ret Continue
      else ret Continue
  | unknown_event => ret Continue
  end.

(** The two [except] branches: leave the room, then disconnect. *)
Definition on_disconnect (socket_id room_id : string) : M unit :=
  let* _ := leave_room socket_id room_id in
  update (disconnect socket_id).

(** The receive loop over the messages the client sends before its
    transport closes; it ends in an [except] branch either way. *)
Fixpoint receive_loop (websocket : WebSocket) (socket_id room_id : string)
    (inbox : list event) : M unit :=
  match inbox with
  | [] => on_disconnect socket_id room_id
  | ev :: rest =>
      let* r := handle_event websocket socket_id room_id ev in
      match r with
      | Continue => receive_loop websocket socket_id room_id rest
      | Raise => on_disconnect socket_id room_id
      end
  end.

Definition websocket_endpoint (websocket : WebSocket) (socket_id room_id : string)
    (inbox : list event) : M unit :=
  let* _ := connect websocket socket_id in
  receive_loop websocket socket_id room_id inbox.

(** ** Sequences of manager operations *)

Inductive op : Type :=
| Connect (websocket : WebSocket) (socket_id : string)
| Disconnect (socket_id : string)
| JoinRoom (socket_id room_id username : string)
| LeaveRoom (socket_id room_id : string)
| SendPersonalMessage (socket_id : string) (message : json)
| SendToUser (username : string) (message : json)
| BroadcastToRoom (room_id : string) (message : json) (exclude_socket : option string)
| SendUserList (room_id : string).

Definition run_op (o : op) : M unit :=
  match o with
  | Connect websocket socket_id => connect websocket socket_id
  | Disconnect socket_id => update (disconnect socket_id)
  | JoinRoom socket_id room_id username => join_room socket_id room_id username
  | LeaveRoom socket_id room_id => leave_room socket_id room_id
  | SendPersonalMessage socket_id message =>
      let* _ := send_personal_message socket_id message in ret tt
  | SendToUser username message =>
      let* _ := send_to_user username message in ret tt
  | BroadcastToRoom room_id message exclude_socket =>
      broadcast_to_room room_id message exclude_socket
  | SendUserList room_id => send_user_list room_id
  end.

Definition run_ops (ops : list op) (w : World) : World :=
  foldl (λ acc o, exec (run_op o) acc) w ops.

(** The endpoint only joins under a name that passed [if username:]. *)
Definition named (o : op) : Prop :=
  match o with
  | JoinRoom _ _ username => str_truthy username = true
  | _ => True
  end.

(** ** What a run shows *)

(** The sends made between two worlds, oldest first. *)
Definition new_sends (w w' : World) : list Delivery :=
  drop (length (sent w)) (sent w').

(** The connections those sends address. *)
Definition delivered_to (w w' : World) : list string :=
  to_socket <$> new_sends w w'.

(** The members a broadcast sends to: every member except the excluded
    connection whose handle is in the registry, in member order. *)
Definition recipients (m : ConnectionManager) (exclude_socket : option string)
    (members : list User.t) : list string :=
  User.socket_id <$>
    filter (λ u, Some (User.socket_id u) ≠ exclude_socket
                 ∧ is_Some (active_connections m !! User.socket_id u)) members.

(** The member list of a room; a room that is not in the directory has none. *)
Definition members (m : ConnectionManager) (room_id : string) : list User.t :=
  match rooms m !! room_id with
  | Some room => Room.users room
  | None => []
  end.

(** Every member a broadcast would address has a handle in the registry. *)
Definition all_registered (m : ConnectionManager) (exclude_socket : option string)
    (us : list User.t) : Prop :=
  Forall (λ u, Some (User.socket_id u) ≠ exclude_socket →
               is_Some (active_connections m !! User.socket_id u)) us.

(** The names in a room's member list. *)
Definition member_names (m : ConnectionManager) (room_id : string) : list string :=
  match rooms m !! room_id with
  | Some room => User.username <$> Room.users room
  | None => []
  end.

(** Every scripted send succeeds. *)
Definition healthy (w : World) : Prop := Forall (λ b, b = true) (wire w).

(** ** Invariants *)

(** A room in the directory has a member. *)
Definition rooms_nonempty (m : ConnectionManager) : Prop :=
  ∀ room_id room, rooms m !! room_id = Some room → Room.users room ≠ [].

(** A name resolves to a connection that carries that name. *)
Definition names_consistent (m : ConnectionManager) : Prop :=
  ∀ username socket_id,
    user_sockets m !! username = Some socket_id →
    socket_users m !! socket_id = Some username ∧ str_truthy username = true.

(** Last writer wins, as a property of the manager: the name resolves to
    the winner, the loser is still in the registry, and no name resolves to
    the loser. *)
Definition superseded (m : ConnectionManager) (username loser winner : string)
    : Prop :=
  user_sockets m !! username = Some winner
  ∧ is_Some (active_connections m !! loser)
  ∧ ∀ v, user_sockets m !! v ≠ Some loser.

(** ** Sample sessions *)

Definition ws_a : WebSocket := {| ws_handle := 1 |}.
Definition ws_b : WebSocket := {| ws_handle := 2 |}.

(** Two connections in room r1, as alice and bob. *)
Definition alice_and_bob (script : list bool) : World :=
  run_ops [Connect ws_a "A"; Connect ws_b "B";
           JoinRoom "A" "r1" "alice"; JoinRoom "B" "r1" "bob"] (initial script).

(** Two connections that joined room r1 under the same name, A first. *)
Definition alice_twice : World :=
  run_ops [Connect ws_a "A"; Connect ws_b "B";
           JoinRoom "A" "r1" "alice"; JoinRoom "B" "r1" "alice"] (initial []).

(** A chat message in room r1 while the transport of A is broken: the
    four sends of the two joins succeed, the next one fails. *)
Definition hello : json := new_message "bob" (JStr "hi") JNull.

Definition before_failed_send : World :=
  alice_and_bob [true; true; true; true; false].

Definition after_failed_send : World :=
  exec (broadcast_to_room "r1" hello None) before_failed_send.

(** The first connection, registered and alone. *)
Definition only_a : World := run_ops [Connect ws_a "A"] (initial []).

(** A log of sends that starts with the join acknowledgement. *)
Definition ack_sent_first (room_id socket_id : string) (log : list Delivery)
    : Prop :=
  ∃ d rest, log = d :: rest ∧ payload d = join_success room_id socket_id.

(** The outcome of the next [send_text]. *)
Definition next_outcome (w : World) : bool := default true (head (wire w)).

(** What a join does, in order: the two updates, the member-joined
    notices, the snapshots, and last the acknowledgement. *)
Definition join_trace (websocket : WebSocket) (socket_id room_id username : string)
    (w : World) : Prop :=
  let m1 := join_room_add_member socket_id room_id username
              (join_room_bind socket_id room_id username (mgr w)) in
  let ev := join_room_event (Some username) in
  let w' := exec (handle_event websocket socket_id room_id ev) w in
  ∃ joined snapshot ack failed1 failed2,
    new_sends w w' = joined ++ snapshot ++ [ack]
    ∧ mgr w' = reap_all failed2 (reap_all failed1 m1)
    ∧ user_sockets m1 !! username = Some socket_id
    ∧ User.mk socket_id username socket_id ∈ members m1 room_id
    ∧ to_socket <$> joined = recipients m1 (Some socket_id) (members m1 room_id)
    ∧ Forall (λ d, payload d = user_joined username ∧ to_socket d ≠ socket_id) joined
    ∧ to_socket <$> snapshot
      = recipients (reap_all failed1 m1) None (members m1 room_id)
    ∧ Forall (λ d, payload d = online_users (members m1 room_id)) snapshot
    ∧ (is_Some (active_connections (mgr w) !! socket_id) →
       socket_id ∈ to_socket <$> snapshot)
    ∧ to_socket ack = socket_id
    ∧ payload ack = join_success room_id socket_id
    ∧ eval (handle_event websocket socket_id room_id ev) w
      = (if delivered ack then Continue else Raise).

(** The log holds an error notice to the connection naming the target of a
    signal. *)
Definition notified (socket_id target : string) (log : list Delivery) : Prop :=
  ∃ d, d ∈ log ∧ to_socket d = socket_id
       ∧ payload d = error_notice ("Failed to deliver WebRTC signal to " +:+ target).

(** A signal to a name nobody holds: the unicast fails without touching the
    world, the handler sends exactly one message, the error notice naming the
    target, to its own connection, and goes on when that send returns. *)
Definition signal_bounced (websocket : WebSocket) (socket_id room_id : string)
    (sender target : string) (data : json) (w : World) : Prop :=
  let ev := webrtc_signal (Some sender) (Some target) (Some data) in
  send_to_user target (signal_envelope sender data) w = (false, w)
  ∧ new_sends w (exec (handle_event websocket socket_id room_id ev) w)
    = [ {| to_socket := socket_id;
           payload := error_notice ("Failed to deliver WebRTC signal to " +:+ target);
           delivered := next_outcome w |} ]
  ∧ mgr (exec (handle_event websocket socket_id room_id ev) w) = mgr w
  ∧ eval (handle_event websocket socket_id room_id ev) w
    = (if next_outcome w then Continue else Raise).

(** The message a transfer request forwards. *)
Definition forwarded_request (sender : string)
    (filename file_size file_type : option json) : json :=
  transfer_request sender
    (if get_truthy filename then py_get filename else JStr "Unknown file")
    (normalize_file_size (py_get file_size))
    (default (JStr "application/octet-stream") file_type).

(** The message a transfer response forwards. *)
Definition forwarded_response (sender : string) (accepted filename : option json)
    : json :=
  transfer_response sender (py_get accepted)
    (default (JStr "Unknown file") filename).

(** The two relays side by side.  The response handler does what
    [send_to_user] does and nothing more: every message it sends is the
    response itself.  The request handler makes the same unicast and, when it
    fails, also sends the error notice to its own connection. *)
Definition relay_asymmetry (websocket : WebSocket) (socket_id room_id : string)
    (sender target : string) (accepted filename req_filename file_size
     file_type : option json) (w : World) : Prop :=
  let resp := forwarded_response sender accepted filename in
  let req := forwarded_request sender req_filename file_size file_type in
  let response_ev :=
    file_transfer_response (Some sender) (Some target) accepted filename in
  let request_ev :=
    file_transfer_request (Some sender) (Some target) req_filename file_size
      file_type in
  handle_event websocket socket_id room_id response_ev w
    = (Continue, exec (send_to_user target resp) w)
  ∧ Forall (λ d, payload d = resp)
      (new_sends w (exec (handle_event websocket socket_id room_id response_ev) w))
  ∧ (∀ d text,
       d ∈ new_sends w (exec (handle_event websocket socket_id room_id response_ev) w) →
       payload d ≠ error_notice text)
  ∧ (eval (send_to_user target req) w = false →
     new_sends w (exec (handle_event websocket socket_id room_id request_ev) w)
     = new_sends w (exec (send_to_user target req) w)
       ++ [ {| to_socket := socket_id;
               payload := error_notice ("User " +:+ target +:+ " is not available");
               delivered := next_outcome (exec (send_to_user target req) w) |} ])
  ∧ (eval (send_to_user target req) w = true →
     handle_event websocket socket_id room_id request_ev w
     = (Continue, exec (send_to_user target req) w)).

(** Where the two relays deliver.  When the target username is bound to a
    connection with a handle in the registry, both handlers make one send to
    that connection, carrying the response or the request; a failed send
    gets the target disconnected, and only the request handler then sends
    the error notice to its own connection.  When the target has no such
    connection, the response handler sends nothing and changes nothing, and
    the request handler sends only the error notice. *)
Definition relay_delivery (websocket : WebSocket) (socket_id room_id : string)
    (sender target : string) (accepted filename req_filename file_size
     file_type : option json) (w : World) : Prop :=
  let resp := forwarded_response sender accepted filename in
  let req := forwarded_request sender req_filename file_size file_type in
  let response_ev :=
    file_transfer_response (Some sender) (Some target) accepted filename in
  let request_ev :=
    file_transfer_request (Some sender) (Some target) req_filename file_size
      file_type in
  let notice ok :=
    {| to_socket := socket_id;
       payload := error_notice ("User " +:+ target +:+ " is not available");
       delivered := ok |} in
  (∀ target_socket handle,
     user_sockets (mgr w) !! target = Some target_socket →
     str_truthy target_socket = true →
     active_connections (mgr w) !! target_socket = Some handle →
     new_sends w (exec (handle_event websocket socket_id room_id response_ev) w)
     = [ {| to_socket := target_socket; payload := resp;
            delivered := next_outcome w |} ]
     ∧ mgr (exec (handle_event websocket socket_id room_id response_ev) w)
       = (if next_outcome w then mgr w else disconnect target_socket (mgr w))
     ∧ new_sends w (exec (handle_event websocket socket_id room_id request_ev) w)
       = {| to_socket := target_socket; payload := req;
            delivered := next_outcome w |}
         :: (if next_outcome w then []
             else [notice (default true (head (tail (wire w))))])
     ∧ mgr (exec (handle_event websocket socket_id room_id request_ev) w)
       = (if next_outcome w then mgr w else disconnect target_socket (mgr w)))
  ∧ ((∀ target_socket,
        user_sockets (mgr w) !! target = Some target_socket →
        str_truthy target_socket = false
        ∨ active_connections (mgr w) !! target_socket = None) →
     handle_event websocket socket_id room_id response_ev w = (Continue, w)
     ∧ new_sends w (exec (handle_event websocket socket_id room_id request_ev) w)
       = [notice (next_outcome w)]
     ∧ mgr (exec (handle_event websocket socket_id room_id request_ev) w) = mgr w).

(** ** Further invariants *)

(** A connection carries a name exactly when it carries a room, and the
    name it carries is not empty. *)
Definition presence_consistent (m : ConnectionManager) : Prop :=
  (∀ socket_id username,
     socket_users m !! socket_id = Some username →
     str_truthy username = true ∧ is_Some (socket_rooms m !! socket_id))
  ∧ (∀ socket_id room_id,
       socket_rooms m !! socket_id = Some room_id →
       is_Some (socket_users m !! socket_id)).

(** A room is stored under its own identifier; its member records have
    pairwise distinct connection ids and pairwise distinct names, and each
    record repeats the connection id in both of its id fields. *)
Definition room_well_formed (room_id : string) (room : Room.t) : Prop :=
  Room.room_id room = room_id
  ∧ NoDup (User.id <$> Room.users room)
  ∧ NoDup (User.username <$> Room.users room)
  ∧ Forall (λ u, User.socket_id u = User.id u) (Room.users room).

Definition directory_well_formed (m : ConnectionManager) : Prop :=
  ∀ room_id room, rooms m !! room_id = Some room → room_well_formed room_id room.

Definition is_connect (o : op) : bool :=
  match o with
  | Connect _ _ => true
  | _ => false
  end.

(** What [leave_room] sends on a room of the directory.  [remaining] are
    the member records that stay, [announced] is the test of the source for
    the member-left notice.  The notices come first, then the snapshots; a
    remaining member is dropped from the snapshot only when it had no handle
    in the registry or its notice failed. *)
Definition leave_trace (socket_id room_id : string) (room : Room.t) (w : World)
    : Prop :=
  let remaining := filter (λ u, User.id u ≠ socket_id) (Room.users room) in
  let name := socket_users (mgr w) !! socket_id in
  let announced :=
    bool_decide (length remaining < length (Room.users room)) && opt_truthy name in
  ∃ notices snapshot failed1,
    new_sends w (exec (leave_room socket_id room_id) w) = notices ++ snapshot
    ∧ to_socket <$> notices
      = (if announced then recipients (mgr w) None remaining else [])
    ∧ Forall (λ d, payload d = user_left (default "" name)) notices
    ∧ (∀ x, x ∈ failed1 →
            active_connections (mgr w) !! x = None
            ∨ ∃ d, d ∈ notices ∧ to_socket d = x ∧ delivered d = false)
    ∧ to_socket <$> snapshot
      = recipients (reap_all failed1 (mgr w)) None remaining
    ∧ Forall (λ d, payload d = online_users remaining) snapshot
    ∧ (∀ u, u ∈ remaining →
            is_Some (active_connections (mgr w) !! User.socket_id u) →
            (∀ d, d ∈ notices → to_socket d = User.socket_id u →
                  delivered d = true) →
            User.socket_id u ∈ to_socket <$> snapshot).

(** * Proofs *)

(** ** Frame properties of the pure updates *)

Lemma rooms_disconnect socket_id m : rooms (disconnect socket_id m) = rooms m.
Proof. reflexivity. Qed.

Lemma rooms_reap_all l : ∀ m, rooms (reap_all l m) = rooms m.
Proof.
  induction l as [|x l IH]; intros m; simpl; [done|].
  unfold reap_all in *. simpl. by rewrite IH.
Qed.

Lemma reap_all_app l1 l2 m : reap_all (l1 ++ l2) m = reap_all l2 (reap_all l1 m).
Proof. unfold reap_all. by rewrite foldl_app. Qed.

Lemma active_disconnect_ne x s m :
  x ≠ s → active_connections (disconnect x m) !! s = active_connections m !! s.
Proof. intros Hne. simpl. by rewrite lookup_delete_ne. Qed.

Lemma active_reap_all l s : ∀ m,
  s ∉ l → active_connections (reap_all l m) !! s = active_connections m !! s.
Proof.
  induction l as [|x l IH]; intros m Hs; [done|].
  apply not_elem_of_cons in Hs as [Hne Hs].
  unfold reap_all in *. simpl foldl. rewrite IH by done.
  by apply active_disconnect_ne.
Qed.

(** ** The broadcast loop *)

Lemma new_sends_app w w' ext : sent w' = sent w ++ ext → new_sends w w' = ext.
Proof. intros E. unfold new_sends. rewrite E. by rewrite drop_app_length. Qed.

Lemma broadcast_loop_spec message exclude_socket members :
  ∀ disconnected_sockets w res w',
    broadcast_loop message exclude_socket members disconnected_sockets w = (res, w') →
    ∃ ext failed,
      res = disconnected_sockets ++ failed
      ∧ mgr w' = mgr w
      ∧ sent w' = sent w ++ ext
      ∧ wire w' = drop (length ext) (wire w)
      ∧ to_socket <$> ext = recipients (mgr w) exclude_socket members
      ∧ Forall (λ d, payload d = message) ext
      ∧ Forall (λ x, Some x ≠ exclude_socket ∧ x ∈ User.socket_id <$> members) failed.
Proof.
  induction members as [|user rest IH]; intros dis w res w' E.
  { injection E as <- <-. exists [], []. simpl. by rewrite !app_nil_r. }
  simpl in E. unfold recipients. rewrite filter_cons.
  case_bool_decide as Hex.
  - unfold bnd at 1, the_manager at 1 in E.
    destruct (active_connections (mgr w) !! User.socket_id user) as [ws|] eqn:Hws.
    + unfold bnd at 1, send_text at 1 in E.
      set (ok := match wire w with [] => true | b :: _ => b end) in E.
      apply IH in E as (ext & failed & H1 & H2 & H3 & H4 & H5 & H6 & H7).
      simpl in H2, H3, H4, H5.
      exists ({| to_socket := User.socket_id user; payload := message;
                 delivered := ok |} :: ext),
             ((if ok then [] else [User.socket_id user]) ++ failed).
      rewrite decide_True by (split; [done | by eexists]).
      split_and!.
      * rewrite H1. destruct ok; by rewrite <- ?app_assoc.
      * done.
      * rewrite H3. by rewrite <- app_assoc.
      * rewrite H4. destruct (wire w); simpl; [by rewrite !drop_nil | done].
      * simpl. f_equal. apply H5.
      * by constructor.
      * apply Forall_app. split.
        -- destruct ok; constructor; [|done]. split; [done | rewrite ?fmap_cons; apply elem_of_cons; by left].
        -- eapply Forall_impl; [exact H7|]. simpl. intros x [Hx1 Hx2]. split; [done|]. rewrite ?fmap_cons. apply elem_of_cons. by right.
    + apply IH in E as (ext & failed & H1 & H2 & H3 & H4 & H5 & H6 & H7).
      exists ext, (User.socket_id user :: failed).
      rewrite decide_False by (intros [_ [? ?]]; done).
      split_and!; try done.
      * rewrite H1. by rewrite <- app_assoc.
      * constructor; [split; [done | rewrite ?fmap_cons; apply elem_of_cons; by left]|].
        eapply Forall_impl; [exact H7|]. simpl. intros x [Hx1 Hx2]. split; [done|]. rewrite ?fmap_cons. apply elem_of_cons. by right.
  - apply IH in E as (ext & failed & H1 & H2 & H3 & H4 & H5 & H6 & H7).
    exists ext, failed.
    rewrite decide_False by (intros [? _]; done).
    split_and!; try done.
    eapply Forall_impl; [exact H7|]. simpl. intros x [Hx1 Hx2]. split; [done|]. rewrite ?fmap_cons. apply elem_of_cons. by right.
Qed.

Lemma healthy_drop n w w' : wire w' = drop n (wire w) → healthy w → healthy w'.
Proof. unfold healthy. intros ->. apply Forall_drop. Qed.

Lemma broadcast_loop_quiet message exclude_socket us :
  ∀ disconnected_sockets w res w',
    broadcast_loop message exclude_socket us disconnected_sockets w = (res, w') →
    healthy w → all_registered (mgr w) exclude_socket us →
    res = disconnected_sockets.
Proof.
  induction us as [|user rest IH]; intros dis w res w' E Hw Hreg.
  { by injection E as <- <-. }
  apply Forall_cons in Hreg as [Huser Hrest].
  simpl in E. case_bool_decide as Hex.
  - unfold bnd at 1, the_manager at 1 in E.
    destruct (Huser Hex) as [ws Hws].
    rewrite Hws in E. unfold bnd at 1, send_text at 1 in E.
    assert (Hok : match wire w with [] => true | b :: _ => b end = true).
    { unfold healthy in Hw. destruct (wire w); [done|]. by inversion Hw. }
    rewrite Hok in E. apply IH in E; [done | | done].
    unfold healthy in *. simpl. destruct (wire w); [done|]. by inversion Hw.
  - by apply IH in E.
Qed.

(** ** Broadcasts *)

Lemma broadcast_to_room_spec room_id message exclude_socket w w' :
  exec (broadcast_to_room room_id message exclude_socket) w = w' →
  ∃ ext failed,
    mgr w' = reap_all failed (mgr w)
    ∧ sent w' = sent w ++ ext
    ∧ wire w' = drop (length ext) (wire w)
    ∧ to_socket <$> ext
      = recipients (mgr w) exclude_socket (members (mgr w) room_id)
    ∧ Forall (λ d, payload d = message) ext
    ∧ Forall (λ x, Some x ≠ exclude_socket
                   ∧ x ∈ User.socket_id <$> members (mgr w) room_id) failed.
Proof.
  unfold broadcast_to_room, members, exec, bnd at 1, the_manager.
  destruct (rooms (mgr w) !! room_id) as [room|] eqn:Hroom; intros <-.
  - unfold bnd.
    destruct (broadcast_loop message exclude_socket (Room.users room) [] w)
      as [dis w1] eqn:E.
    apply broadcast_loop_spec in E
      as (ext & failed & H1 & H2 & H3 & H4 & H5 & H6 & H7).
    exists ext, failed. simpl in *. subst dis. rewrite H2. by split_and!.
  - exists [], []. simpl. rewrite app_nil_r. by split_and!.
Qed.

Lemma broadcast_to_room_quiet room_id message exclude_socket w w' :
  exec (broadcast_to_room room_id message exclude_socket) w = w' →
  healthy w →
  all_registered (mgr w) exclude_socket (members (mgr w) room_id) →
  mgr w' = mgr w ∧ healthy w'.
Proof.
  unfold broadcast_to_room, members, exec, bnd at 1, the_manager.
  destruct (rooms (mgr w) !! room_id) as [room|] eqn:Hroom;
    intros <- Hw Hreg; [|done].
  unfold bnd.
  destruct (broadcast_loop message exclude_socket (Room.users room) [] w)
    as [dis w1] eqn:E.
  pose proof E as E'.
  apply broadcast_loop_quiet in E; [|done..].
  apply broadcast_loop_spec in E' as (ext & failed & _ & H2 & _ & H4 & _).
  subst dis. simpl. split; [done|]. by eapply healthy_drop.
Qed.

Lemma send_user_list_spec room_id w w' :
  exec (send_user_list room_id) w = w' →
  ∃ ext failed,
    mgr w' = reap_all failed (mgr w)
    ∧ sent w' = sent w ++ ext
    ∧ wire w' = drop (length ext) (wire w)
    ∧ to_socket <$> ext = recipients (mgr w) None (members (mgr w) room_id)
    ∧ Forall (λ d, payload d = online_users (members (mgr w) room_id)) ext.
Proof.
  unfold send_user_list, exec, bnd, the_manager.
  destruct (rooms (mgr w) !! room_id) as [room|] eqn:Hroom; intros E.
  - apply broadcast_to_room_spec in E
      as (ext & failed & H1 & H2 & H3 & H4 & H5 & _).
    exists ext, failed. unfold members in *. rewrite Hroom in *. done.
  - subst w'. exists [], []. unfold members. rewrite Hroom. simpl.
    by rewrite app_nil_r.
Qed.

Lemma send_user_list_quiet room_id w w' :
  exec (send_user_list room_id) w = w' →
  healthy w → all_registered (mgr w) None (members (mgr w) room_id) →
  mgr w' = mgr w ∧ healthy w'.
Proof.
  unfold send_user_list, exec, bnd, the_manager.
  destruct (rooms (mgr w) !! room_id) as [room|] eqn:Hroom; intros E Hw Hreg.
  - by eapply broadcast_to_room_quiet.
  - by subst w'.
Qed.

(** ** Properties kept by every operation that only reaps *)

Section preservation.
Variable P : ConnectionManager → Prop.
Hypothesis P_disconnect : ∀ socket_id m, P m → P (disconnect socket_id m).

Lemma P_reap_all l : ∀ m, P m → P (reap_all l m).
Proof.
  induction l as [|x l IH]; intros m Hm; [done|].
  unfold reap_all in *. simpl. apply IH. by apply P_disconnect.
Qed.

Lemma P_broadcast_to_room room_id message exclude_socket w :
  P (mgr w) → P (mgr (exec (broadcast_to_room room_id message exclude_socket) w)).
Proof.
  intros Hw.
  destruct (broadcast_to_room_spec room_id message exclude_socket w _ eq_refl)
    as (ext & failed & H1 & _).
  rewrite H1. by apply P_reap_all.
Qed.

Lemma P_send_user_list room_id w :
  P (mgr w) → P (mgr (exec (send_user_list room_id) w)).
Proof.
  intros Hw.
  destruct (send_user_list_spec room_id w _ eq_refl) as (ext & failed & H1 & _).
  rewrite H1. by apply P_reap_all.
Qed.

Lemma P_send_personal_message socket_id message w :
  P (mgr w) → P (mgr (exec (send_personal_message socket_id message) w)).
Proof.
  intros Hw. unfold send_personal_message, exec, bnd, the_manager, send_text.
  destruct (active_connections (mgr w) !! socket_id); [|done].
  destruct (match wire w with [] => true | b :: _ => b end); simpl; [done|].
  by apply P_disconnect.
Qed.

Lemma P_send_to_user username message w :
  P (mgr w) → P (mgr (exec (send_to_user username message) w)).
Proof.
  intros Hw. unfold send_to_user, exec, bnd at 1, the_manager.
  destruct (user_sockets (mgr w) !! username) as [s|]; [|done].
  destruct (str_truthy s); [|done].
  by apply P_send_personal_message.
Qed.
End preservation.

(** ** The shape of join and leave *)

Lemma members_reap_all l m room_id : members (reap_all l m) room_id = members m room_id.
Proof. unfold members. by rewrite rooms_reap_all. Qed.

Lemma set_rooms_same m : set_rooms (λ x, x) m = m.
Proof. by destruct m. Qed.

Lemma join_room_spec socket_id room_id username w w' :
  exec (join_room socket_id room_id username) w = w' →
  ∃ joined snapshot failed1 failed2,
    let m1 := join_room_add_member socket_id room_id username
                (join_room_bind socket_id room_id username (mgr w)) in
    mgr w' = reap_all failed2 (reap_all failed1 m1)
    ∧ sent w' = sent w ++ joined ++ snapshot
    ∧ wire w' = drop (length (joined ++ snapshot)) (wire w)
    ∧ to_socket <$> joined
      = recipients m1 (Some socket_id) (members m1 room_id)
    ∧ Forall (λ d, payload d = user_joined username) joined
    ∧ Forall (λ x, x ≠ socket_id) failed1
    ∧ to_socket <$> snapshot
      = recipients (reap_all failed1 m1) None (members m1 room_id)
    ∧ Forall (λ d, payload d = online_users (members m1 room_id)) snapshot.
Proof.
  unfold join_room, exec. unfold bnd at 1 2, update at 1 2. simpl.
  set (m1 := join_room_add_member _ _ _ _).
  set (w1 := {| mgr := m1; wire := wire w; sent := sent w |}).
  unfold bnd.
  destruct (broadcast_to_room room_id (user_joined username) (Some socket_id) w1)
    as [[] w2] eqn:E1.
  assert (exec (broadcast_to_room room_id (user_joined username)
                  (Some socket_id)) w1 = w2) as E1' by (unfold exec; by rewrite E1).
  apply broadcast_to_room_spec in E1'
    as (joined & failed1 & A1 & A2 & A3 & A4 & A5 & A6).
  intros E2. apply send_user_list_spec in E2
    as (snapshot & failed2 & B1 & B2 & B3 & B4 & B5).
  exists joined, snapshot, failed1, failed2. simpl in *.
  rewrite A1 in B1, B4, B5. rewrite members_reap_all in B4, B5.
  split_and!; try done.
  - by rewrite B2, A2, app_assoc.
  - by rewrite B3, A3, drop_drop, length_app.
  - eapply Forall_impl; [exact A6|]. simpl. intros x [Hx _]. congruence.
Qed.

Lemma leave_room_tail room_id (remaining : list User.t) m0 failed1 w2 w' :
  mgr w2 = reap_all failed1 m0 →
  exec (let* _ := send_user_list room_id in
        match remaining with
        | [] => update (set_rooms (delete room_id))
        | _ :: _ => ret tt
        end) w2 = w' →
  ∃ failed,
    mgr w' = set_rooms (match remaining with
                        | [] => delete room_id
                        | _ :: _ => λ x, x
                        end) (reap_all failed m0).
Proof.
  intros F1. unfold exec, bnd.
  destruct (send_user_list room_id w2) as [[] w3] eqn:E2.
  assert (exec (send_user_list room_id) w2 = w3) as E by (unfold exec; by rewrite E2).
  apply send_user_list_spec in E as (? & failed2 & B1 & _).
  intros <-. exists (failed1 ++ failed2).
  rewrite reap_all_app, <- F1, <- B1.
  destruct remaining; simpl; [done|]. by rewrite set_rooms_same.
Qed.

Lemma leave_room_spec socket_id room_id w w' :
  exec (leave_room socket_id room_id) w = w' →
  match rooms (mgr w) !! room_id with
  | None => w' = w
  | Some room =>
      let remaining := filter (λ u, User.id u ≠ socket_id) (Room.users room) in
      ∃ failed,
        mgr w' =
          set_rooms (match remaining with
                     | [] => delete room_id
                     | _ :: _ => λ x, x
                     end)
            (reap_all failed
               (set_rooms (<[room_id := Room.mk (Room.room_id room) remaining]>)
                  (mgr w)))
  end.
Proof.
  unfold leave_room, exec. unfold bnd at 1, the_manager at 1.
  destruct (rooms (mgr w) !! room_id) as [room|] eqn:Hroom; [|by intros <-].
  cbv zeta. set (remaining := filter _ _).
  unfold bnd at 1, update at 1.
  set (w1 := Build_World _ (wire w) (sent w)).
  unfold bnd at 1.
  destruct (bool_decide _ && opt_truthy _).
  - destruct (broadcast_to_room room_id _ None w1) as [[] w2] eqn:E1.
    match type of E1 with ?c w1 = _ =>
      assert (exec c w1 = w2) as E by (unfold exec; by rewrite E1) end.
    apply broadcast_to_room_spec in E as (? & failed1 & A1 & _).
    intros E. eapply leave_room_tail; [exact A1 | exact E].
  - intros E. eapply (leave_room_tail _ _ _ []); [|exact E]. done.
Qed.

(** ** The directory invariant *)

Lemma rooms_nonempty_disconnect socket_id m :
  rooms_nonempty m → rooms_nonempty (disconnect socket_id m).
Proof. done. Qed.

Lemma rooms_nonempty_join_room socket_id room_id username w :
  rooms_nonempty (mgr w) →
  rooms_nonempty (mgr (exec (join_room socket_id room_id username) w)).
Proof.
  intros Hw.
  destruct (join_room_spec socket_id room_id username w _ eq_refl)
    as (? & ? & failed1 & failed2 & H1 & _).
  intros r room. rewrite H1, !rooms_reap_all. simpl.
  destruct (decide (room_id = r)) as [->|Hne].
  - rewrite lookup_insert_eq. intros [= <-]. simpl.
    intros E. by apply app_eq_nil in E as [_ ?].
  - rewrite lookup_insert_ne by done. apply Hw.
Qed.

Lemma rooms_nonempty_leave_room socket_id room_id w :
  rooms_nonempty (mgr w) →
  rooms_nonempty (mgr (exec (leave_room socket_id room_id) w)).
Proof.
  intros Hw.
  pose proof (leave_room_spec socket_id room_id w _ eq_refl) as H.
  destruct (rooms (mgr w) !! room_id) as [room|] eqn:Hroom; [|by rewrite H].
  cbv zeta in H. destruct H as [failed H]. rewrite H.
  intros r room'. simpl. rewrite rooms_reap_all. simpl.
  destruct (filter _ (Room.users room)) as [|u rest] eqn:Hrem.
  - destruct (decide (room_id = r)) as [->|Hne].
    + by rewrite lookup_delete_eq.
    + rewrite lookup_delete_ne, lookup_insert_ne by done. apply Hw.
  - destruct (decide (room_id = r)) as [->|Hne].
    + rewrite lookup_insert_eq. by intros [= <-].
    + rewrite lookup_insert_ne by done. apply Hw.
Qed.

Lemma rooms_nonempty_run_op o w :
  rooms_nonempty (mgr w) → rooms_nonempty (mgr (exec (run_op o) w)).
Proof.
  intros Hw. destruct o; simpl.
  - done.
  - done.
  - by apply rooms_nonempty_join_room.
  - by apply rooms_nonempty_leave_room.
  - pose proof (P_send_personal_message _ rooms_nonempty_disconnect
                  socket_id message w Hw) as H.
    unfold exec, bnd in *. by destruct (send_personal_message _ _ w).
  - pose proof (P_send_to_user _ rooms_nonempty_disconnect
                  username message w Hw) as H.
    unfold exec, bnd in *. by destruct (send_to_user _ _ w).
  - by apply P_broadcast_to_room.
  - by apply P_send_user_list.
Qed.

Lemma rooms_nonempty_run_ops ops :
  ∀ w, rooms_nonempty (mgr w) → rooms_nonempty (mgr (run_ops ops w)).
Proof.
  induction ops as [|o ops IH]; intros w Hw; [done|].
  unfold run_ops in *. simpl. apply IH. by apply rooms_nonempty_run_op.
Qed.

Lemma rooms_nonempty_initial script : rooms_nonempty (mgr (initial script)).
Proof. intros r room. simpl. by rewrite lookup_empty. Qed.

(** ** The identity invariant *)

Lemma names_consistent_disconnect socket_id m :
  names_consistent m → names_consistent (disconnect socket_id m).
Proof.
  intros H v t. simpl.
  destruct (socket_users m !! socket_id) as [n|] eqn:Hn; simpl; [|apply H].
  destruct (str_truthy n) eqn:Ht; [|apply H].
  intros Hv. destruct (decide (n = v)) as [->|Hne].
  { by rewrite lookup_delete_eq in Hv. }
  rewrite lookup_delete_ne in Hv by done.
  destruct (H _ _ Hv) as [H1 H2]. split; [|done].
  rewrite lookup_delete_ne; [done|]. intros ->. congruence.
Qed.

Lemma names_consistent_bind socket_id room_id username m :
  str_truthy username = true →
  names_consistent m →
  names_consistent (join_room_bind socket_id room_id username m).
Proof.
  intros Hu H v t. simpl.
  destruct (decide (username = v)) as [->|Hne].
  { rewrite lookup_insert_eq. intros [= <-]. by rewrite lookup_insert_eq. }
  rewrite lookup_insert_ne by done. intros Hv.
  assert (user_sockets m !! v = Some t) as Hv'.
  { destruct (socket_users m !! socket_id) as [old|]; [|done].
    destruct (_ && _); [|done].
    destruct (decide (old = v)) as [->|].
    - by rewrite lookup_delete_eq in Hv.
    - by rewrite lookup_delete_ne in Hv. }
  destruct (H _ _ Hv') as [H1 H2]. split; [|done].
  destruct (decide (socket_id = t)) as [->|Hst]; [|by rewrite lookup_insert_ne].
  exfalso. rewrite H1, H2 in Hv. simpl in Hv.
  rewrite bool_decide_eq_true_2 in Hv by done.
  by rewrite lookup_delete_eq in Hv.
Qed.

Lemma names_consistent_set_rooms f m :
  names_consistent m → names_consistent (set_rooms f m).
Proof. done. Qed.

Lemma names_consistent_join_room socket_id room_id username w :
  str_truthy username = true →
  names_consistent (mgr w) →
  names_consistent (mgr (exec (join_room socket_id room_id username) w)).
Proof.
  intros Hu Hw.
  destruct (join_room_spec socket_id room_id username w _ eq_refl)
    as (? & ? & failed1 & failed2 & H1 & _).
  rewrite H1.
  do 2 apply (P_reap_all _ names_consistent_disconnect).
  apply names_consistent_set_rooms. by apply names_consistent_bind.
Qed.

Lemma names_consistent_leave_room socket_id room_id w :
  names_consistent (mgr w) →
  names_consistent (mgr (exec (leave_room socket_id room_id) w)).
Proof.
  intros Hw.
  pose proof (leave_room_spec socket_id room_id w _ eq_refl) as H.
  destruct (rooms (mgr w) !! room_id) as [room|]; [|by rewrite H].
  destruct H as [failed H]. rewrite H.
  apply names_consistent_set_rooms.
  apply (P_reap_all _ names_consistent_disconnect).
  by apply names_consistent_set_rooms.
Qed.

Lemma names_consistent_run_op o w :
  named o → names_consistent (mgr w) → names_consistent (mgr (exec (run_op o) w)).
Proof.
  intros Ho Hw. destruct o; simpl.
  - done.
  - by apply names_consistent_disconnect.
  - by apply names_consistent_join_room.
  - by apply names_consistent_leave_room.
  - pose proof (P_send_personal_message _ names_consistent_disconnect
                  socket_id message w Hw) as H.
    unfold exec, bnd in *. by destruct (send_personal_message _ _ w).
  - pose proof (P_send_to_user _ names_consistent_disconnect
                  username message w Hw) as H.
    unfold exec, bnd in *. by destruct (send_to_user _ _ w).
  - by apply P_broadcast_to_room; [apply names_consistent_disconnect|].
  - by apply P_send_user_list; [apply names_consistent_disconnect|].
Qed.

Lemma names_consistent_run_ops ops :
  ∀ w, Forall named ops → names_consistent (mgr w) →
       names_consistent (mgr (run_ops ops w)).
Proof.
  induction ops as [|o ops IH]; intros w Hops Hw; [done|].
  inversion Hops; subst.
  unfold run_ops in *. simpl. apply IH; [done|]. by apply names_consistent_run_op.
Qed.

Lemma names_consistent_initial script : names_consistent (mgr (initial script)).
Proof. intros v t. simpl. by rewrite lookup_empty. Qed.

(** ** Joining when every delivery succeeds *)

Lemma all_registered_weaken m exclude_socket us :
  all_registered m None us → all_registered m exclude_socket us.
Proof.
  intros H. eapply Forall_impl; [exact H|]. intros u Hu _. by apply Hu.
Qed.

Lemma join_room_quiet socket_id room_id username w :
  let m1 := join_room_add_member socket_id room_id username
              (join_room_bind socket_id room_id username (mgr w)) in
  healthy w → all_registered m1 None (members m1 room_id) →
  mgr (exec (join_room socket_id room_id username) w) = m1.
Proof.
  intros m1 Hw Hreg.
  unfold join_room, exec. unfold bnd at 1 2, update at 1 2. simpl.
  fold m1. set (w1 := {| mgr := m1; wire := wire w; sent := sent w |}).
  unfold bnd.
  destruct (broadcast_to_room room_id (user_joined username) (Some socket_id) w1)
    as [[] w2] eqn:E1.
  assert (exec (broadcast_to_room room_id (user_joined username)
                  (Some socket_id)) w1 = w2) as E1' by (unfold exec; by rewrite E1).
  apply broadcast_to_room_quiet in E1' as [A1 A2];
    [| done | by apply all_registered_weaken].
  destruct (send_user_list_quiet room_id w2 _ eq_refl) as [B1 _];
    [done | by rewrite A1 |].
  unfold exec in B1. by rewrite B1, A1.
Qed.

(** * The claims *)

(** ** C2: a room is in the directory exactly when it has a member *)

Lemma join_then_leave_absent socket_id room_id username w :
  rooms (mgr w) !! room_id = None →
  rooms (mgr (exec (leave_room socket_id room_id)
                (exec (join_room socket_id room_id username) w))) !! room_id = None.
Proof.
  intros Hfresh.
  destruct (join_room_spec socket_id room_id username w _ eq_refl)
    as (? & ? & failed1 & failed2 & H1 & _).
  set (w1 := exec (join_room socket_id room_id username) w) in *.
  assert (rooms (mgr w1) !! room_id
          = Some (Room.mk room_id [User.mk socket_id username socket_id])) as Hroom.
  { rewrite H1, !rooms_reap_all. simpl. rewrite Hfresh. simpl.
    by rewrite lookup_insert_eq. }
  pose proof (leave_room_spec socket_id room_id w1 _ eq_refl) as H.
  rewrite Hroom in H. simpl in H.
  rewrite filter_cons, decide_False in H by (simpl; intros ?; done).
  rewrite filter_nil in H. destruct H as [failed H].
  rewrite H. simpl. by rewrite lookup_delete_eq.
Qed.

(** C2.  After any sequence of manager operations from the empty state, a
    room identifier is in the room directory if and only if the room's member
    list has at least one member; and joining a room that is not in the
    directory, then leaving it with the same connection, leaves the room out
    of the directory again. *)
Theorem room_listed_iff_occupied ops script socket_id room_id username :
  let w := run_ops ops (initial script) in
  (is_Some (rooms (mgr w) !! room_id)
   ↔ 1 ≤ length (get_room_users (mgr w) room_id))
  ∧ (rooms (mgr w) !! room_id = None →
     rooms (mgr (exec (leave_room socket_id room_id)
                   (exec (join_room socket_id room_id username) w)))
       !! room_id = None).
Proof.
  intros w. split; [|apply join_then_leave_absent].
  pose proof (rooms_nonempty_run_ops ops _ (rooms_nonempty_initial script)) as Hinv.
  fold w in Hinv. unfold get_room_users.
  destruct (rooms (mgr w) !! room_id) as [room|] eqn:Hroom.
  - split; [intros _|by eauto].
    apply Hinv in Hroom. rewrite length_fmap.
    destruct (Room.users room); [done | simpl; lia].
  - split; [by intros [? ?] | simpl; lia].
Qed.

Lemma room_listed_iff_occupied_witness :
  rooms (mgr (run_ops [Connect ws_a "A"] (initial []))) !! "r1" = None
  ∧ rooms (mgr (exec (leave_room "A" "r1")
                  (exec (join_room "A" "r1" "alice")
                     (run_ops [Connect ws_a "A"] (initial [])))))
      !! "r1" = None.
Proof.
  split; [reflexivity|].
  apply (room_listed_iff_occupied [Connect ws_a "A"] [] "A" "r1" "alice").
  reflexivity.
Defined.

(** ** C3: identity binding is last-writer-wins *)

Lemma bind_supersedes m A B room_id u :
  names_consistent m →
  user_sockets m !! u = Some A →
  is_Some (active_connections m !! A) →
  A ≠ B →
  superseded (join_room_bind B room_id u m) u A B.
Proof.
  intros Hm Hu HA Hne. unfold superseded. simpl. split_and!.
  - by rewrite lookup_insert_eq.
  - done.
  - intros v Hv.
    destruct (decide (u = v)) as [->|Huv].
    { rewrite lookup_insert_eq in Hv. congruence. }
    rewrite lookup_insert_ne in Hv by done.
    assert (user_sockets m !! v = Some A) as Hv'.
    { destruct (socket_users m !! B) as [old|]; [|done].
      destruct (_ && _); [|done].
      destruct (decide (old = v)) as [->|].
      - by rewrite lookup_delete_eq in Hv.
      - by rewrite lookup_delete_ne in Hv. }
    destruct (Hm _ _ Hu) as [Hu' _]. destruct (Hm _ _ Hv') as [Hv'' _].
    congruence.
Qed.

(** C3.  In every state reached by manager operations (joins under
    non-empty names), if username [u] resolves to connection [A], [A] is in
    the registry and a different connection [B] binds [u], then afterwards
    [u] resolves to [B], [A] is still in the registry, and no username
    resolves to [A].  This holds right after the binding step of
    [join_room], and after the whole [join_room] when none of its deliveries
    fails. *)
Theorem last_writer_wins ops script A B room_id u :
  let w := run_ops ops (initial script) in
  Forall named ops →
  user_sockets (mgr w) !! u = Some A →
  is_Some (active_connections (mgr w) !! A) →
  A ≠ B →
  superseded (join_room_bind B room_id u (mgr w)) u A B
  ∧ (let m1 := join_room_add_member B room_id u
                 (join_room_bind B room_id u (mgr w)) in
     healthy w → all_registered m1 None (members m1 room_id) →
     superseded (mgr (exec (join_room B room_id u) w)) u A B).
Proof.
  intros w Hops Hu HA Hne.
  assert (names_consistent (mgr w)) as Hm.
  { apply names_consistent_run_ops; [done | apply names_consistent_initial]. }
  pose proof (bind_supersedes _ _ _ room_id _ Hm Hu HA Hne) as Hb.
  split; [done|]. intros m1 Hw Hreg.
  by rewrite join_room_quiet.
Qed.

Lemma last_writer_wins_witness :
  let w := run_ops [Connect ws_a "A"; Connect ws_b "B";
                    JoinRoom "A" "r1" "alice"] (initial []) in
  user_sockets (mgr w) !! "alice" = Some "A"
  ∧ superseded (join_room_bind "B" "r1" "alice" (mgr w)) "alice" "A" "B"
  ∧ superseded (mgr (exec (join_room "B" "r1" "alice") w)) "alice" "A" "B".
Proof.
  intros w.
  destruct (last_writer_wins
              [Connect ws_a "A"; Connect ws_b "B"; JoinRoom "A" "r1" "alice"]
              [] "A" "B" "r1" "alice") as [H1 H2].
  - repeat constructor.
  - reflexivity.
  - vm_compute. eauto.
  - discriminate.
  - split; [reflexivity|]. split; [exact H1|]. apply H2.
    + constructor.
    + vm_compute. repeat constructor. intros _. eauto.
Defined.

(** ** C5: joining again under the same name leaves one member record *)

Lemma filter_name_kept socket_id username (l : list User.t) :
  filter (λ x, User.username x = username)
    (filter (λ x, User.id x ≠ socket_id ∧ User.username x ≠ username) l) = [].
Proof.
  induction l as [|x l IH]; [done|].
  rewrite (filter_cons (λ x, _ ∧ _)). case_decide as H; [|done].
  rewrite filter_cons_False; [done|]. by destruct H.
Qed.

Lemma members_add_member socket_id room_id username m :
  members (join_room_add_member socket_id room_id username m) room_id
  = filter (λ x, User.id x ≠ socket_id ∧ User.username x ≠ username)
      (members m room_id) ++ [User.mk socket_id username socket_id].
Proof.
  unfold members, join_room_add_member. simpl. rewrite lookup_insert_eq. simpl.
  by destruct (rooms m !! room_id).
Qed.

Lemma members_join_room socket_id room_id username w :
  members (mgr (exec (join_room socket_id room_id username) w)) room_id
  = filter (λ x, User.id x ≠ socket_id ∧ User.username x ≠ username)
      (members (mgr w) room_id) ++ [User.mk socket_id username socket_id].
Proof.
  destruct (join_room_spec socket_id room_id username w _ eq_refl)
    as (? & ? & failed1 & failed2 & H1 & _).
  rewrite H1, !members_reap_all. by rewrite members_add_member.
Qed.

(** C5.  After a join under username [u] by connection [A] and a second join
    under the same [u] by connection [B] into the same room, the room's
    member list holds exactly one record with username [u], the record of
    [B]. *)
Theorem rejoin_keeps_one_record w A B room_id u :
  let w' := exec (join_room B room_id u) (exec (join_room A room_id u) w) in
  filter (λ x, User.username x = u) (members (mgr w') room_id) = [User.mk B u B].
Proof.
  intros w'. subst w'. rewrite members_join_room.
  rewrite filter_app, filter_name_kept. simpl.
  by rewrite filter_cons_True, filter_nil.
Qed.

(** ** C10: reaping a superseded connection removes the live binding *)

(** C10.  When username [u] has been rebound from connection [A] to a
    different connection [B] (the reverse entry of [A] still names [u], and
    [u] resolves to [B]), [disconnect A] deletes the entry of [u]: afterwards
    [u] resolves to nothing, although [B] is still in the registry and still
    a member of its room. *)
Theorem reaping_superseded_drops_live_binding m A B room_id u :
  socket_users m !! A = Some u →
  str_truthy u = true →
  user_sockets m !! u = Some B →
  A ≠ B →
  is_Some (active_connections m !! B) →
  User.mk B u B ∈ members m room_id →
  let m' := disconnect A m in
  user_sockets m' !! u = None
  ∧ is_Some (active_connections m' !! B)
  ∧ User.mk B u B ∈ members m' room_id.
Proof.
  intros HA Hu HB Hne Hreg Hmem m'. subst m'. split_and!.
  - simpl. rewrite HA, Hu. by rewrite lookup_delete_eq.
  - by rewrite active_disconnect_ne.
  - done.
Qed.

Lemma reaping_superseded_drops_live_binding_witness :
  user_sockets (mgr alice_twice) !! "alice" = Some "B"
  ∧ user_sockets (disconnect "A" (mgr alice_twice)) !! "alice" = None
  ∧ is_Some (active_connections (disconnect "A" (mgr alice_twice)) !! "B")
  ∧ User.mk "B" "alice" "B" ∈ members (disconnect "A" (mgr alice_twice)) "r1".
Proof.
  split; [reflexivity|].
  apply (reaping_superseded_drops_live_binding (mgr alice_twice) "A" "B" "r1" "alice").
  - reflexivity.
  - reflexivity.
  - reflexivity.
  - discriminate.
  - vm_compute. eauto.
  - vm_compute. apply list_elem_of_singleton. reflexivity.
Defined.

(** ** C1 and C6: who a broadcast is delivered to *)

Lemma exec_then_ret {A B} (c : M A) (b : B) w :
  exec (let* _ := c in ret b) w = exec c w.
Proof. unfold exec, bnd, ret. by destruct (c w). Qed.

Lemma delivered_to_broadcast room_id message exclude_socket w :
  delivered_to w (exec (broadcast_to_room room_id message exclude_socket) w)
  = recipients (mgr w) exclude_socket (members (mgr w) room_id).
Proof.
  destruct (broadcast_to_room_spec room_id message exclude_socket w _ eq_refl)
    as (ext & failed & _ & H2 & _ & H4 & _).
  unfold delivered_to. by rewrite (new_sends_app _ _ _ H2).
Qed.

Lemma members_broadcast room_id message exclude_socket w r :
  members (mgr (exec (broadcast_to_room room_id message exclude_socket) w)) r
  = members (mgr w) r.
Proof.
  destruct (broadcast_to_room_spec room_id message exclude_socket w _ eq_refl)
    as (ext & failed & H1 & _).
  by rewrite H1, members_reap_all.
Qed.

Lemma recipients_excluded m x us : x ∉ recipients m (Some x) us.
Proof.
  unfold recipients. intros (u & -> & Hu)%list_elem_of_fmap.
  apply list_elem_of_filter in Hu as [[Hne _] _]. done.
Qed.

Lemma recipients_everyone m us :
  recipients m None us
  = User.socket_id <$>
      filter (λ u, is_Some (active_connections m !! User.socket_id u)) us.
Proof.
  unfold recipients. f_equal.
  induction us as [|u us IH]; [done|].
  rewrite !filter_cons, IH.
  destruct (decide (is_Some (active_connections m !! User.socket_id u))).
  - by rewrite decide_True.
  - rewrite decide_False; [done|]. by intros [_ ?].
Qed.

(** C1, the code at a failing send.  Room r1 holds alice (connection A) and
    bob (connection B), and the send to A fails during a chat broadcast.
    The broadcast still attempts the delivery to B, and A is reaped: it
    leaves the registry and alice no longer resolves.  But the member record
    of A stays in the room: the member list still names alice, and the
    snapshot sent right after still lists alice. *)
Theorem failed_member_stays_listed :
  new_sends before_failed_send after_failed_send
    = [ {| to_socket := "A"; payload := hello; delivered := false |};
        {| to_socket := "B"; payload := hello; delivered := true |} ]
  ∧ active_connections (mgr after_failed_send) !! "A" = None
  ∧ user_sockets (mgr after_failed_send) !! "alice" = None
  ∧ member_names (mgr after_failed_send) "r1" = ["alice"; "bob"]
  ∧ new_sends after_failed_send (exec (send_user_list "r1") after_failed_send)
    = [ {| to_socket := "B";
           payload := online_users [User.mk "A" "alice" "A"; User.mk "B" "bob" "B"];
           delivered := true |} ].
Proof. vm_compute. by split_and!. Qed.

(** C6.  A broadcast with an excluded connection never sends to that
    connection, and the member-joined notice of a join is never sent to the
    joining connection.  A chat message is broadcast with no exclusion: it is
    sent to every member of the room whose connection is in the registry, in
    member order, the sender included. *)
Theorem broadcast_exclusion websocket socket_id room_id message x username
    text timestamp w :
  (x ∉ delivered_to w (exec (broadcast_to_room room_id message (Some x)) w))
  ∧ (∀ d, d ∈ new_sends w (exec (join_room socket_id room_id username) w) →
          payload d = user_joined username → to_socket d ≠ socket_id)
  ∧ (str_truthy username = true → truthy text = true →
     delivered_to w
       (exec (handle_event websocket socket_id room_id
                (chat_message (Some username) (Some text) timestamp)) w)
     = User.socket_id <$>
         filter (λ u, is_Some (active_connections (mgr w) !! User.socket_id u))
                (members (mgr w) room_id)).
Proof.
  split_and!.
  - rewrite delivered_to_broadcast. apply recipients_excluded.
  - destruct (join_room_spec socket_id room_id username w _ eq_refl)
      as (joined & snapshot & failed1 & failed2 & _ & H2 & _ & H4 & _ & _ & _ & H8).
    rewrite (new_sends_app _ _ _ H2).
    intros d [Hd|Hd]%elem_of_app Hp.
    + intros Heq. eapply recipients_excluded. rewrite <- H4, <- Heq.
      by apply list_elem_of_fmap_2.
    + rewrite Forall_forall in H8. apply H8 in Hd. rewrite Hd in Hp. discriminate.
  - intros Hu Ht. simpl. rewrite Hu, Ht. simpl.
    rewrite exec_then_ret, delivered_to_broadcast. apply recipients_everyone.
Qed.

Lemma broadcast_exclusion_witness :
  let w := alice_and_bob [] in
  ("A" ∉ delivered_to w (exec (broadcast_to_room "r1" hello (Some "A")) w))
  ∧ delivered_to w
      (exec (handle_event ws_b "B" "r1"
               (chat_message (Some "bob") (Some (JStr "hi")) None)) w)
    = ["A"; "B"].
Proof.
  intros w.
  destruct (broadcast_exclusion ws_b "B" "r1" hello "A" "bob" (JStr "hi") None w)
    as (H1 & _ & H3).
  split; [exact H1|].
  rewrite H3; reflexivity.
Defined.

(** ** C4: what a join sends, and in which order *)

Lemma reply_spec websocket socket_id message w :
  reply websocket socket_id message w
  = (if next_outcome w then Continue else Raise,
     {| mgr := mgr w; wire := tail (wire w);
        sent := sent w ++ [{| to_socket := socket_id; payload := message;
                              delivered := next_outcome w |}] |}).
Proof.
  unfold reply, bnd, send_text, ret, next_outcome. by destruct (wire w).
Qed.

(** C4 as stated fails: when A joins the empty room r1, the member list
    snapshot is sent first and the acknowledgement after it. *)
Lemma join_ack_not_first :
  new_sends only_a
    (exec (handle_event ws_a "A" "r1" (join_room_event (Some "alice"))) only_a)
  = [ {| to_socket := "A";
         payload := online_users [User.mk "A" "alice" "A"];
         delivered := true |};
      {| to_socket := "A"; payload := join_success "r1" "A"; delivered := true |} ]
  ∧ ¬ ack_sent_first "r1" "A"
        (new_sends only_a
           (exec (handle_event ws_a "A" "r1" (join_room_event (Some "alice")))
              only_a)).
Proof.
  assert (new_sends only_a
            (exec (handle_event ws_a "A" "r1" (join_room_event (Some "alice")))
               only_a)
          = [ {| to_socket := "A";
                 payload := online_users [User.mk "A" "alice" "A"];
                 delivered := true |};
              {| to_socket := "A"; payload := join_success "r1" "A";
                 delivered := true |} ]) as E by (vm_compute; reflexivity).
  split; [exact E|].
  rewrite E. intros (d & rest & Hlog & Hd).
  injection Hlog as <- _. discriminate Hd.
Qed.

(** C4, amended.  For a Join event with a non-empty username the handler
    binds the name, adds the member record, broadcasts the member-joined
    notice to the registered members other than the joining connection, then
    broadcasts the member-list snapshot to the members still registered, the
    joining connection included, and only then sends the joining connection
    the acknowledgement with the room id and the connection id. *)
Theorem join_order websocket socket_id room_id username w :
  str_truthy username = true →
  join_trace websocket socket_id room_id username w.
Proof.
  intros Hu. unfold join_trace. cbv zeta.
  set (m1 := join_room_add_member _ _ _ _).
  unfold handle_event, exec, eval.
  change (opt_truthy (Some username)) with (str_truthy username).
  rewrite Hu. change (the (Some username)) with username. unfold bnd.
  destruct (join_room socket_id room_id username w) as [[] w1] eqn:E.
  assert (exec (join_room socket_id room_id username) w = w1) as E'
    by (unfold exec; by rewrite E).
  apply join_room_spec in E'
    as (joined & snapshot & failed1 & failed2
        & H1 & H2 & H3 & H4 & H5 & H6 & H7 & H8).
  fold m1 in H1, H4, H7, H8.
  rewrite reply_spec. simpl.
  assert (User.mk socket_id username socket_id ∈ members m1 room_id) as Hmem.
  { subst m1. rewrite members_add_member. apply elem_of_app. right.
    by apply list_elem_of_singleton. }
  exists joined, snapshot,
    {| to_socket := socket_id; payload := join_success room_id socket_id;
       delivered := next_outcome w1 |}, failed1, failed2.
  split_and!; try done.
  - apply new_sends_app. by rewrite H2, <- !app_assoc.
  - simpl. by rewrite lookup_insert_eq.
  - apply Forall_forall. intros d Hd. split.
    + rewrite Forall_forall in H5. by apply H5.
    + intros Heq. eapply recipients_excluded. rewrite <- H4, <- Heq.
      by apply list_elem_of_fmap_2.
  - intros Hreg. rewrite H7. unfold recipients.
    apply (list_elem_of_fmap_2' _ _ (User.mk socket_id username socket_id));
      [|done].
    apply list_elem_of_filter. split; [|done]. split; [done|]. simpl.
    rewrite active_reap_all; [done|].
    intros Hin. rewrite Forall_forall in H6. by apply H6 in Hin.
Qed.

Lemma join_order_witness :
  str_truthy "carol" = true ∧ join_trace ws_a "A" "r1" "carol" (alice_and_bob []).
Proof.
  split; [reflexivity|].
  apply (join_order ws_a "A" "r1" "carol" (alice_and_bob [])). reflexivity.
Defined.

(** ** Unicast *)

Lemma send_personal_message_spec socket_id message w :
  ∃ ext,
    sent (exec (send_personal_message socket_id message) w) = sent w ++ ext
    ∧ Forall (λ d, payload d = message ∧ to_socket d = socket_id) ext.
Proof.
  unfold send_personal_message, exec, bnd, the_manager, send_text.
  destruct (active_connections (mgr w) !! socket_id).
  - set (ok := match wire w with [] => true | b :: _ => b end).
    exists [{| to_socket := socket_id; payload := message; delivered := ok |}].
    destruct ok; simpl; (split; [done | by repeat constructor]).
  - exists []. simpl. by rewrite app_nil_r.
Qed.

Lemma send_to_user_spec username message w :
  ∃ ext,
    sent (exec (send_to_user username message) w) = sent w ++ ext
    ∧ Forall (λ d, payload d = message) ext.
Proof.
  unfold send_to_user, exec, bnd at 1, the_manager.
  destruct (user_sockets (mgr w) !! username) as [s|];
    [|exists []; simpl; by rewrite app_nil_r].
  destruct (str_truthy s); [|exists []; simpl; by rewrite app_nil_r].
  destruct (send_personal_message_spec s message w) as (ext & H1 & H2).
  exists ext. split; [done|]. eapply Forall_impl; [exact H2|]. by intros d [? _].
Qed.

Lemma send_to_user_unbound username message w :
  user_sockets (mgr w) !! username = None →
  send_to_user username message w = (false, w).
Proof. intros H. unfold send_to_user, bnd, the_manager. by rewrite H. Qed.

(** ** C7: a signal to a name nobody holds *)

Lemma signal_relayed websocket socket_id room_id sender target fields :
  str_truthy sender = true → str_truthy target = true → fields ≠ [] →
  handle_event websocket socket_id room_id
    (webrtc_signal (Some sender) (Some target) (Some (JObj fields)))
  = (let* success := send_to_user target (signal_envelope sender (JObj fields)) in
     if success then ret Continue
     else reply websocket socket_id
            (error_notice ("Failed to deliver WebRTC signal to " +:+ target))).
Proof.
  intros Hs Ht Hf. unfold handle_event.
  change (opt_truthy (Some sender)) with (str_truthy sender).
  change (opt_truthy (Some target)) with (str_truthy target).
  rewrite Hs, Ht. by destruct fields.
Qed.

(** C7 as stated fails: a signal to the unbound name carol whose data is the
    empty object, or whose sender is the empty string, does not pass the
    guard of the handler; no unicast is made and nothing is sent back. *)
Lemma empty_signal_dropped :
  user_sockets (mgr (alice_and_bob [])) !! "carol" = None
  ∧ handle_event ws_a "A" "r1"
      (webrtc_signal (Some "alice") (Some "carol") (Some (JObj [])))
      (alice_and_bob [])
    = (Continue, alice_and_bob [])
  ∧ handle_event ws_a "A" "r1"
      (webrtc_signal (Some "") (Some "carol") (Some (JObj [("type", JStr "offer")])))
      (alice_and_bob [])
    = (Continue, alice_and_bob [])
  ∧ ¬ notified "A" "carol"
        (new_sends (alice_and_bob [])
           (exec (handle_event ws_a "A" "r1"
                    (webrtc_signal (Some "alice") (Some "carol") (Some (JObj []))))
              (alice_and_bob []))).
Proof.
  split_and!; [reflexivity..|].
  intros (d & Hd & _). vm_compute in Hd. by apply elem_of_nil in Hd.
Qed.

(** C7, amended.  For a webrtc_signal event that carries a non-empty sender,
    a non-empty target and a non-empty data object, when the target username
    has no connection bound to it, the unicast returns failure as a value and
    changes nothing, and the handler sends the event's connection one error
    notice with the message "Failed to deliver WebRTC signal to <target>";
    the handler goes on with the loop when that send returns. *)
Theorem signal_to_unbound_target websocket socket_id room_id sender target
    fields w :
  str_truthy sender = true →
  str_truthy target = true →
  fields ≠ [] →
  user_sockets (mgr w) !! target = None →
  signal_bounced websocket socket_id room_id sender target (JObj fields) w.
Proof.
  intros Hs Ht Hf Hunbound. unfold signal_bounced. cbv zeta.
  pose proof (send_to_user_unbound target
                (signal_envelope sender (JObj fields)) w Hunbound) as Hsend.
  split; [exact Hsend|].
  rewrite (signal_relayed websocket socket_id room_id sender target fields)
    by done.
  unfold exec, eval, bnd. rewrite Hsend, reply_spec. simpl.
  split_and!; try done.
  unfold new_sends. simpl. by rewrite drop_app_length.
Qed.

Lemma signal_to_unbound_target_witness :
  user_sockets (mgr (alice_and_bob [])) !! "carol" = None
  ∧ signal_bounced ws_a "A" "r1" "alice" "carol"
      (JObj [("type", JStr "offer")]) (alice_and_bob []).
Proof.
  split; [reflexivity|].
  apply (signal_to_unbound_target ws_a "A" "r1" "alice" "carol"
           [("type", JStr "offer")] (alice_and_bob []));
    [reflexivity | reflexivity | discriminate | reflexivity].
Defined.

(** ** C8: the size field of a transfer request *)

Lemma normalize_file_size_int z :
  normalize_file_size (JInt z) = if bool_decide (z < 0)%Z then JInt 0 else JInt z.
Proof. reflexivity. Qed.

Lemma normalize_file_size_float f :
  normalize_file_size (JFloat f)
  = if PrimFloat.ltb f 0%float then JInt 0 else JFloat f.
Proof. reflexivity. Qed.

Lemma normalize_file_size_other v :
  is_int_or_float v = false → normalize_file_size v = JInt 0.
Proof. unfold normalize_file_size. by intros ->. Qed.

Lemma request_not_rejected websocket socket_id room_id sender target filename
    file_size file_type w :
  str_truthy sender = true → str_truthy target = true →
  handle_event websocket socket_id room_id
    (file_transfer_request (Some sender) (Some target) filename file_size file_type) w
  = (let* success := send_to_user target
                       (forwarded_request sender filename file_size file_type) in
     if success then ret Continue
     else reply websocket socket_id
            (error_notice ("User " +:+ target +:+ " is not available"))) w.
Proof.
  intros Hs Ht. unfold handle_event.
  change (opt_truthy (Some sender)) with (str_truthy sender).
  change (opt_truthy (Some target)) with (str_truthy target).
  by rewrite Hs, Ht.
Qed.

(** C8, the code at a boolean size.  alice (connection A) sends bob a
    transfer request whose file_size is the JSON value true.  The request
    reaches bob with file_size true, not 0; a file_size that is a string is
    forwarded as 0, and the missing file_type as the generic binary type. *)
Theorem boolean_file_size_forwarded :
  new_sends (alice_and_bob [])
    (exec (handle_event ws_a "A" "r1"
             (file_transfer_request (Some "alice") (Some "bob")
                (Some (JStr "a.txt")) (Some (JBool true)) None))
       (alice_and_bob []))
  = [ {| to_socket := "B";
         payload := transfer_request "alice" (JStr "a.txt") (JBool true)
                      (JStr "application/octet-stream");
         delivered := true |} ]
  ∧ new_sends (alice_and_bob [])
      (exec (handle_event ws_a "A" "r1"
               (file_transfer_request (Some "alice") (Some "bob")
                  (Some (JStr "a.txt")) (Some (JStr "not-a-number")) None))
         (alice_and_bob []))
    = [ {| to_socket := "B";
           payload := transfer_request "alice" (JStr "a.txt") (JInt 0)
                        (JStr "application/octet-stream");
           delivered := true |} ].
Proof. vm_compute. by split. Qed.

(** ** C9: a failed response relay is silent, a failed request relay is not *)

Lemma response_relayed websocket socket_id room_id sender target accepted
    filename w :
  str_truthy sender = true → str_truthy target = true →
  handle_event websocket socket_id room_id
    (file_transfer_response (Some sender) (Some target) accepted filename) w
  = (Continue,
     exec (send_to_user target (forwarded_response sender accepted filename)) w).
Proof.
  intros Hs Ht. unfold handle_event.
  change (opt_truthy (Some sender)) with (str_truthy sender).
  change (opt_truthy (Some target)) with (str_truthy target).
  rewrite Hs, Ht. simpl. unfold bnd, exec, ret.
  change (the (Some target)) with target. change (the (Some sender)) with sender.
  fold (forwarded_response sender accepted filename).
  by destruct (send_to_user target _ w).
Qed.

Lemma send_to_user_bound username message w socket_id handle :
  user_sockets (mgr w) !! username = Some socket_id →
  str_truthy socket_id = true →
  active_connections (mgr w) !! socket_id = Some handle →
  send_to_user username message w
  = (next_outcome w,
     {| mgr := if next_outcome w then mgr w else disconnect socket_id (mgr w);
        wire := tail (wire w);
        sent := sent w ++ [ {| to_socket := socket_id; payload := message;
                               delivered := next_outcome w |} ] |}).
Proof.
  intros Hb Hs Hh.
  unfold send_to_user, send_personal_message, bnd, the_manager, send_text,
    update, ret, next_outcome.
  rewrite Hb, Hs, Hh. by destruct (wire w) as [|[|] rest].
Qed.

Lemma send_to_user_unreachable username message w :
  (∀ socket_id,
     user_sockets (mgr w) !! username = Some socket_id →
     str_truthy socket_id = false
     ∨ active_connections (mgr w) !! socket_id = None) →
  send_to_user username message w = (false, w).
Proof.
  intros H. unfold send_to_user, bnd, the_manager.
  destruct (user_sockets (mgr w) !! username) as [s|]; [|done].
  destruct (H s eq_refl) as [->|Hnone]; [done|].
  destruct (str_truthy s); [|done].
  unfold send_personal_message, bnd, the_manager. by rewrite Hnone.
Qed.

Lemma response_and_request_delivery websocket socket_id room_id sender target
    accepted filename req_filename file_size file_type w :
  str_truthy sender = true →
  str_truthy target = true →
  relay_delivery websocket socket_id room_id sender target accepted filename
    req_filename file_size file_type w.
Proof.
  intros Hs Ht. unfold relay_delivery. cbv zeta. split.
  - intros target_socket handle Hb Htrue Hh.
    pose proof (send_to_user_bound target
                  (forwarded_response sender accepted filename) w
                  _ _ Hb Htrue Hh) as Hresp.
    pose proof (send_to_user_bound target
                  (forwarded_request sender req_filename file_size file_type) w
                  _ _ Hb Htrue Hh) as Hreq.
    split_and!.
    + unfold exec at 1.
      rewrite (response_relayed websocket socket_id room_id sender target
                 accepted filename w Hs Ht).
      unfold exec. rewrite Hresp. unfold new_sends. simpl.
      by rewrite drop_app_length.
    + unfold exec at 1.
      rewrite (response_relayed websocket socket_id room_id sender target
                 accepted filename w Hs Ht).
      unfold exec. by rewrite Hresp.
    + unfold exec. rewrite request_not_rejected by done.
      unfold bnd. rewrite Hreq.
      destruct (next_outcome w).
      * unfold ret, new_sends. simpl. by rewrite drop_app_length.
      * rewrite reply_spec. unfold new_sends, next_outcome. simpl.
        by rewrite <- app_assoc, drop_app_length.
    + unfold exec. rewrite request_not_rejected by done.
      unfold bnd. rewrite Hreq.
      destruct (next_outcome w); [done|]. by rewrite reply_spec.
  - intros Hun.
    pose proof (send_to_user_unreachable target
                  (forwarded_response sender accepted filename) w Hun) as Hresp.
    pose proof (send_to_user_unreachable target
                  (forwarded_request sender req_filename file_size file_type) w
                  Hun) as Hreq.
    split_and!.
    + rewrite (response_relayed websocket socket_id room_id sender target
                 accepted filename w Hs Ht).
      unfold exec. by rewrite Hresp.
    + unfold exec. rewrite request_not_rejected by done.
      unfold bnd. rewrite Hreq, reply_spec. unfold new_sends. simpl.
      by rewrite drop_app_length.
    + unfold exec. rewrite request_not_rejected by done.
      unfold bnd. by rewrite Hreq, reply_spec.
Qed.

(** C9.  For a file_transfer_response event with sender and target present
    the handler relays the response to the target through the same unicast
    as a request: when the target username is bound to a registered
    connection, that connection is sent the response, exactly as it would be
    sent a request.  The handler sends nothing else: on a failed delivery,
    or for a target that cannot be reached, no error notice goes back.  The
    file_transfer_request handler, in the same situations, sends its own
    connection the error notice "User <target> is not available". *)
Theorem response_failure_is_silent websocket socket_id room_id sender target
    accepted filename req_filename file_size file_type w :
  str_truthy sender = true →
  str_truthy target = true →
  relay_asymmetry websocket socket_id room_id sender target accepted filename
    req_filename file_size file_type w
  ∧ relay_delivery websocket socket_id room_id sender target accepted filename
      req_filename file_size file_type w.
Proof.
  intros Hs Ht. split; [|by apply response_and_request_delivery].
  unfold relay_asymmetry. cbv zeta.
  pose proof (response_relayed websocket socket_id room_id sender target
                accepted filename w Hs Ht) as Hresp.
  assert (Forall (λ d, payload d = forwarded_response sender accepted filename)
            (new_sends w
               (exec (handle_event websocket socket_id room_id
                        (file_transfer_response (Some sender) (Some target)
                           accepted filename)) w))) as Hall.
  { unfold exec at 1. rewrite Hresp. simpl.
    destruct (send_to_user_spec target
                (forwarded_response sender accepted filename) w)
      as (ext & H1 & H2).
    by rewrite (new_sends_app _ _ _ H1). }
  split_and!; [exact Hresp | exact Hall | | |].
  - intros d text Hd Heq. rewrite Forall_forall in Hall.
    rewrite (Hall _ Hd) in Heq. discriminate Heq.
  - clear Hresp Hall.
    destruct (send_to_user_spec target
                (forwarded_request sender req_filename file_size file_type) w)
      as (ext & H1 & _).
    unfold exec, eval in *. rewrite request_not_rejected by done.
    unfold bnd.
    destruct (send_to_user target
                (forwarded_request sender req_filename file_size file_type) w)
      as [ok w1].
    simpl in *. intros ->. rewrite reply_spec. simpl.
    unfold new_sends. simpl. rewrite H1, <- app_assoc.
    by rewrite !drop_app_length.
  - clear Hresp Hall.
    unfold exec, eval. rewrite request_not_rejected by done.
    unfold bnd.
    destruct (send_to_user target
                (forwarded_request sender req_filename file_size file_type) w)
      as [ok w1].
    simpl. by intros ->.
Qed.

Lemma response_failure_is_silent_witness :
  let w := alice_and_bob [true; true; true; true; false] in
  user_sockets (mgr w) !! "bob" = Some "B"
  ∧ active_connections (mgr w) !! "B" = Some ws_b
  ∧ new_sends w
      (exec (handle_event ws_a "A" "r1"
               (file_transfer_response (Some "alice") (Some "bob")
                  (Some (JBool true)) (Some (JStr "a.txt")))) w)
    = [ {| to_socket := "B";
           payload := transfer_response "alice" (JBool true) (JStr "a.txt");
           delivered := false |} ]
  ∧ new_sends w
      (exec (handle_event ws_a "A" "r1"
               (file_transfer_request (Some "alice") (Some "bob")
                  (Some (JStr "a.txt")) (Some (JInt 10)) None)) w)
    = [ {| to_socket := "B";
           payload := transfer_request "alice" (JStr "a.txt") (JInt 10)
                        (JStr "application/octet-stream");
           delivered := false |};
        {| to_socket := "A";
           payload := error_notice "User bob is not available";
           delivered := true |} ].
Proof.
  cbv zeta. split; [reflexivity|]. split; [reflexivity|].
  destruct (response_failure_is_silent ws_a "A" "r1" "alice" "bob"
              (Some (JBool true)) (Some (JStr "a.txt")) (Some (JStr "a.txt"))
              (Some (JInt 10)) None
              (alice_and_bob [true; true; true; true; false]))
    as [_ [Hbound _]]; [reflexivity | reflexivity |].
  destruct (Hbound "B" ws_b) as (H1 & _ & H3 & _);
    [reflexivity | reflexivity | reflexivity |].
  split.
  - etrans; [exact H1|]. reflexivity.
  - etrans; [exact H3|]. reflexivity.
Defined.

(** ** The sessions of the endpoint, run *)

(** bob joins the room alice is in: alice gets the notice, both get the
    snapshot, bob gets the acknowledgement. *)
Example second_join_trace :
  let w := run_ops [Connect ws_a "A"; Connect ws_b "B";
                    JoinRoom "A" "r1" "alice"] (initial []) in
  (λ d, (to_socket d, payload d)) <$>
    new_sends w (exec (handle_event ws_b "B" "r1" (join_room_event (Some "bob"))) w)
  = [ ("A", user_joined "bob");
      ("A", online_users [User.mk "A" "alice" "A"; User.mk "B" "bob" "B"]);
      ("B", online_users [User.mk "A" "alice" "A"; User.mk "B" "bob" "B"]);
      ("B", join_success "r1" "B") ].
Proof. vm_compute. reflexivity. Qed.

(** The transport of bob closes: alice gets the member-left notice and a
    snapshot with only herself; when alice goes too, the room is gone. *)
Example hangup_trace :
  let w := alice_and_bob [] in
  let w1 := exec (on_disconnect "B" "r1") w in
  let w2 := exec (on_disconnect "A" "r1") w1 in
  (λ d, (to_socket d, payload d)) <$> new_sends w w1
  = [ ("A", user_left "bob"); ("A", online_users [User.mk "A" "alice" "A"]) ]
  ∧ rooms (mgr w2) !! "r1" = None
  ∧ new_sends w1 w2 = [].
Proof. vm_compute. by split_and!. Qed.

(** A whole session of one client through the endpoint. *)
Example lone_session :
  let w := exec (websocket_endpoint ws_a "A" "r1"
                   [join_room_event (Some "alice");
                    chat_message (Some "alice") (Some (JStr "hi")) None])
                (initial []) in
  payload <$> sent w
  = [ online_users [User.mk "A" "alice" "A"];
      join_success "r1" "A";
      new_message "alice" (JStr "hi") JNull ]
  ∧ mgr w = manager.
Proof. vm_compute. by split. Qed.

(** * Further properties of the manager and the endpoint *)

(** ** Properties kept by every sequence of operations *)

Section run_invariant.
Variable P : ConnectionManager → Prop.
Variable allowed : op → Prop.
Hypothesis P_disconnect : ∀ socket_id m, P m → P (disconnect socket_id m).
Hypothesis P_set_rooms : ∀ f m, P m → P (set_rooms f m).
Hypothesis P_bind : ∀ socket_id room_id username m,
  allowed (JoinRoom socket_id room_id username) →
  P m → P (join_room_bind socket_id room_id username m).
Hypothesis P_connect : ∀ websocket socket_id w,
  allowed (Connect websocket socket_id) →
  P (mgr w) → P (mgr (exec (connect websocket socket_id) w)).

Lemma P_run_op o w : allowed o → P (mgr w) → P (mgr (exec (run_op o) w)).
Proof.
  intros Ho Hw. destruct o; simpl.
  - by apply P_connect.
  - by apply P_disconnect.
  - destruct (join_room_spec socket_id room_id username w _ eq_refl)
      as (? & ? & failed1 & failed2 & H1 & _).
    rewrite H1. do 2 apply (P_reap_all _ P_disconnect).
    apply P_set_rooms. by apply P_bind.
  - pose proof (leave_room_spec socket_id room_id w _ eq_refl) as H.
    destruct (rooms (mgr w) !! room_id) as [room|]; [|by rewrite H].
    destruct H as [failed H]. rewrite H.
    apply P_set_rooms, (P_reap_all _ P_disconnect). by apply P_set_rooms.
  - pose proof (P_send_personal_message _ P_disconnect socket_id message w Hw) as H.
    unfold exec, bnd in *. by destruct (send_personal_message _ _ w).
  - pose proof (P_send_to_user _ P_disconnect username message w Hw) as H.
    unfold exec, bnd in *. by destruct (send_to_user _ _ w).
  - by apply P_broadcast_to_room.
  - by apply P_send_user_list.
Qed.

Lemma P_run_ops ops :
  ∀ w, Forall allowed ops → P (mgr w) → P (mgr (run_ops ops w)).
Proof.
  induction ops as [|o ops IH]; intros w Hops Hw; [done|].
  inversion Hops; subst.
  unfold run_ops in *. simpl. apply IH; [done|]. by apply P_run_op.
Qed.
End run_invariant.

(** ** The reverse maps *)

Lemma presence_consistent_disconnect socket_id m :
  presence_consistent m → presence_consistent (disconnect socket_id m).
Proof.
  intros [H1 H2].
  assert (opt_truthy (socket_users m !! socket_id) = false →
          socket_users m !! socket_id = None) as Hnone.
  { destruct (socket_users m !! socket_id) as [u|] eqn:E; [|done].
    destruct (H1 _ _ E) as [Hu _]. simpl. by rewrite Hu. }
  split.
  - intros t u. simpl.
    destruct (opt_truthy (socket_users m !! socket_id)) eqn:Ht.
    + intros Hu. destruct (decide (socket_id = t)) as [->|Hne].
      { by rewrite lookup_delete_eq in Hu. }
      rewrite lookup_delete_ne in Hu by done.
      rewrite lookup_delete_ne by done. by apply H1.
    + intros Hu. destruct (decide (socket_id = t)) as [->|Hne].
      { rewrite Hnone in Hu; done. }
      rewrite lookup_delete_ne by done. by apply H1.
  - intros t r. simpl. intros Hr.
    destruct (decide (socket_id = t)) as [->|Hne].
    { by rewrite lookup_delete_eq in Hr. }
    rewrite lookup_delete_ne in Hr by done.
    destruct (opt_truthy (socket_users m !! socket_id));
      rewrite ?lookup_delete_ne by done; by eapply H2.
Qed.

Lemma presence_consistent_bind socket_id room_id username m :
  str_truthy username = true →
  presence_consistent m →
  presence_consistent (join_room_bind socket_id room_id username m).
Proof.
  intros Hu [H1 H2]. split.
  - intros t u. simpl. destruct (decide (socket_id = t)) as [->|Hne].
    + rewrite !lookup_insert_eq. by intros [= <-].
    + rewrite !lookup_insert_ne by done. apply H1.
  - intros t r. simpl. destruct (decide (socket_id = t)) as [->|Hne].
    + rewrite !lookup_insert_eq. by eauto.
    + rewrite !lookup_insert_ne by done. apply H2.
Qed.

Lemma presence_consistent_run_ops ops script :
  Forall named ops →
  presence_consistent (mgr (run_ops ops (initial script))).
Proof.
  intros Hops.
  apply (P_run_ops presence_consistent named
           presence_consistent_disconnect); [done | | done | done |].
  - intros s r u m Hu. by apply presence_consistent_bind.
  - split; intros ? ?; simpl; by rewrite lookup_empty.
Qed.

(** ** X1: disconnecting twice is disconnecting once *)

(** X1.  [disconnect] is idempotent: a second call for the same connection
    id changes nothing, in any manager state. *)
Theorem disconnect_idempotent socket_id m :
  disconnect socket_id (disconnect socket_id m) = disconnect socket_id m.
Proof.
  unfold disconnect at 1. simpl.
  destruct (socket_users m !! socket_id) as [u|] eqn:Hu; simpl.
  - destruct (str_truthy u) eqn:Ht.
    + rewrite lookup_delete_eq. simpl.
      unfold disconnect. rewrite Hu. simpl. rewrite Ht.
      f_equal; by rewrite delete_id by apply lookup_delete_eq.
    + rewrite Hu. simpl. rewrite Ht.
      unfold disconnect. rewrite Hu. simpl. rewrite Ht.
      f_equal; by rewrite delete_id by apply lookup_delete_eq.
  - rewrite Hu. simpl. unfold disconnect. rewrite Hu. simpl.
    f_equal; by rewrite delete_id by apply lookup_delete_eq.
Qed.

(** ** X2: a disconnected connection leaves no entry behind *)

(** X2.  In every state reached by manager operations (joins under
    non-empty names), after [disconnect] of a connection id that id has no
    handle in the registry, no name and no room in the reverse maps, and no
    username resolves to it. *)
Theorem disconnect_forgets_connection ops script socket_id :
  Forall named ops →
  let m := disconnect socket_id (mgr (run_ops ops (initial script))) in
  active_connections m !! socket_id = None
  ∧ socket_users m !! socket_id = None
  ∧ socket_rooms m !! socket_id = None
  ∧ ∀ username, user_sockets m !! username ≠ Some socket_id.
Proof.
  intros Hops m.
  pose proof (names_consistent_run_ops ops _ Hops (names_consistent_initial script))
    as Hn.
  pose proof (presence_consistent_run_ops ops script Hops) as [Hp _].
  set (m0 := mgr (run_ops ops (initial script))) in *.
  assert (socket_users m !! socket_id = None) as Hgone.
  { subst m. simpl. destruct (socket_users m0 !! socket_id) as [u|] eqn:Hu.
    - destruct (Hp _ _ Hu) as [Ht _]. simpl. rewrite Ht.
      by rewrite lookup_delete_eq.
    - simpl. by rewrite Hu. }
  split_and!; [apply lookup_delete_eq | done | apply lookup_delete_eq |].
  intros v Hv.
  apply (names_consistent_disconnect socket_id) in Hn.
  destruct (Hn _ _ Hv) as [Hback _]. fold m in Hback. congruence.
Qed.

Lemma disconnect_forgets_connection_witness :
  let m := disconnect "B" (mgr (alice_and_bob [])) in
  user_sockets (mgr (alice_and_bob [])) !! "bob" = Some "B"
  ∧ active_connections m !! "B" = None
  ∧ socket_users m !! "B" = None
  ∧ socket_rooms m !! "B" = None
  ∧ ∀ username, user_sockets m !! username ≠ Some "B".
Proof.
  split; [reflexivity|].
  apply (disconnect_forgets_connection
           [Connect ws_a "A"; Connect ws_b "B";
            JoinRoom "A" "r1" "alice"; JoinRoom "B" "r1" "bob"] [] "B").
  repeat constructor.
Defined.

(** ** X3 and X4: the identity maps agree *)

(** X3.  In every state reached by manager operations (joins under
    non-empty names), a username that resolves to a connection is the name
    that connection carries, so no two usernames resolve to the same
    connection. *)
Theorem usernames_resolve_apart ops script v1 v2 socket_id :
  Forall named ops →
  let m := mgr (run_ops ops (initial script)) in
  user_sockets m !! v1 = Some socket_id →
  user_sockets m !! v2 = Some socket_id →
  socket_users m !! socket_id = Some v1 ∧ v1 = v2.
Proof.
  intros Hops m H1 H2.
  pose proof (names_consistent_run_ops ops _ Hops (names_consistent_initial script))
    as Hn.
  destruct (Hn _ _ H1) as [B1 _]. destruct (Hn _ _ H2) as [B2 _].
  fold m in B1, B2. split; [done | congruence].
Qed.

Lemma usernames_resolve_apart_witness :
  let m := mgr (alice_and_bob []) in
  user_sockets m !! "alice" = Some "A"
  ∧ socket_users m !! "A" = Some "alice" ∧ "alice" = "alice".
Proof.
  split; [reflexivity|].
  apply (usernames_resolve_apart
           [Connect ws_a "A"; Connect ws_b "B";
            JoinRoom "A" "r1" "alice"; JoinRoom "B" "r1" "bob"] [] "alice" "alice" "A");
    [repeat constructor | reflexivity | reflexivity].
Defined.

(** X4.  In every state reached by manager operations (joins under
    non-empty names), a connection has an entry in [socket_users] exactly
    when it has one in [socket_rooms], and the name stored for it is not
    empty. *)
Theorem name_and_room_together ops script socket_id :
  Forall named ops →
  let m := mgr (run_ops ops (initial script)) in
  (is_Some (socket_users m !! socket_id) ↔ is_Some (socket_rooms m !! socket_id))
  ∧ (∀ username, socket_users m !! socket_id = Some username →
                 str_truthy username = true).
Proof.
  intros Hops m.
  destruct (presence_consistent_run_ops ops script Hops) as [H1 H2].
  fold m in H1, H2. split; [split|].
  - intros [u Hu]. by destruct (H1 _ _ Hu).
  - intros [r Hr]. by eapply H2.
  - intros u Hu. by destruct (H1 _ _ Hu).
Qed.

Lemma name_and_room_together_witness :
  let m := mgr (alice_and_bob []) in
  (is_Some (socket_users m !! "A") ↔ is_Some (socket_rooms m !! "A"))
  ∧ (∀ username, socket_users m !! "A" = Some username →
                 str_truthy username = true).
Proof.
  apply (name_and_room_together
           [Connect ws_a "A"; Connect ws_b "B";
            JoinRoom "A" "r1" "alice"; JoinRoom "B" "r1" "bob"] [] "A").
  repeat constructor.
Defined.

(** ** X5: the shape of the room directory *)

Lemma NoDup_fmap_filter {A B} (f : A → B) (P : A → Prop)
    `{∀ x, Decision (P x)} (l : list A) :
  NoDup (f <$> l) → NoDup (f <$> filter P l).
Proof.
  intros Hl. eapply sublist_NoDup; [exact Hl|].
  apply fmap_sublist, sublist_filter.
Qed.

Lemma room_well_formed_filter (P : User.t → Prop) `{∀ x, Decision (P x)}
    room_id room :
  room_well_formed room_id room →
  room_well_formed room_id (Room.mk (Room.room_id room) (filter P (Room.users room))).
Proof.
  intros (H1 & H2 & H3 & H4). split_and!; simpl.
  - done.
  - by apply NoDup_fmap_filter.
  - by apply NoDup_fmap_filter.
  - apply Forall_forall. intros u [_ Hu]%list_elem_of_filter.
    rewrite Forall_forall in H4. by apply H4.
Qed.

Lemma room_well_formed_add socket_id username room_id room :
  room_well_formed room_id room →
  room_well_formed room_id
    (Room.mk (Room.room_id room)
       (filter (λ u, User.id u ≠ socket_id ∧ User.username u ≠ username)
               (Room.users room)
        ++ [User.mk socket_id username socket_id])).
Proof.
  intros Hroom.
  destruct (room_well_formed_filter
              (λ u, User.id u ≠ socket_id ∧ User.username u ≠ username)
              room_id room Hroom) as (H1 & H2 & H3 & H4).
  simpl in *. split_and!; simpl.
  - done.
  - rewrite fmap_app. apply NoDup_app. split_and!; [done | | apply NoDup_singleton].
    intros x (u & -> & Hu)%list_elem_of_fmap Hx.
    apply list_elem_of_filter in Hu as [[Hid _] _].
    apply list_elem_of_singleton in Hx. done.
  - rewrite fmap_app. apply NoDup_app. split_and!; [done | | apply NoDup_singleton].
    intros x (u & -> & Hu)%list_elem_of_fmap Hx.
    apply list_elem_of_filter in Hu as [[_ Hname] _].
    apply list_elem_of_singleton in Hx. done.
  - apply Forall_app. split; [done|]. by repeat constructor.
Qed.

Lemma directory_well_formed_join_room socket_id room_id username w :
  directory_well_formed (mgr w) →
  directory_well_formed (mgr (exec (join_room socket_id room_id username) w)).
Proof.
  intros Hw.
  destruct (join_room_spec socket_id room_id username w _ eq_refl)
    as (? & ? & failed1 & failed2 & H1 & _).
  intros r room. rewrite H1, !rooms_reap_all. simpl.
  destruct (decide (room_id = r)) as [->|Hne].
  - rewrite lookup_insert_eq. intros [= <-].
    apply room_well_formed_add.
    destruct (rooms (mgr w) !! r) as [room0|] eqn:E; simpl.
    + by apply Hw.
    + split_and!; simpl; [done | apply NoDup_nil_2 | apply NoDup_nil_2 | done].
  - rewrite lookup_insert_ne by done. apply Hw.
Qed.

Lemma directory_well_formed_leave_room socket_id room_id w :
  directory_well_formed (mgr w) →
  directory_well_formed (mgr (exec (leave_room socket_id room_id) w)).
Proof.
  intros Hw.
  pose proof (leave_room_spec socket_id room_id w _ eq_refl) as H.
  destruct (rooms (mgr w) !! room_id) as [room|] eqn:Hroom; [|by rewrite H].
  cbv zeta in H. destruct H as [failed H]. rewrite H.
  intros r room'. simpl. rewrite rooms_reap_all. simpl.
  assert (∀ room'',
            <[room_id:=Room.mk (Room.room_id room)
                         (filter (λ u, User.id u ≠ socket_id) (Room.users room))]>
              (rooms (mgr w)) !! r = Some room'' →
            room_well_formed r room'') as Hins.
  { intros room''. destruct (decide (room_id = r)) as [->|Hne].
    - rewrite lookup_insert_eq. intros [= <-].
      apply room_well_formed_filter. by apply Hw.
    - rewrite lookup_insert_ne by done. apply Hw. }
  destruct (filter _ (Room.users room)) as [|u rest] eqn:Hrem.
  - destruct (decide (room_id = r)) as [->|Hne].
    + by rewrite lookup_delete_eq.
    + rewrite lookup_delete_ne by done. apply Hins.
  - apply Hins.
Qed.

Lemma directory_well_formed_run_ops ops :
  ∀ w, directory_well_formed (mgr w) →
       directory_well_formed (mgr (run_ops ops w)).
Proof.
  induction ops as [|o ops IH]; intros w Hw; [done|].
  unfold run_ops in *. simpl. apply IH.
  assert (∀ s m, directory_well_formed m → directory_well_formed (disconnect s m))
    as Hdis by done.
  destruct o; simpl.
  - done.
  - done.
  - by apply directory_well_formed_join_room.
  - by apply directory_well_formed_leave_room.
  - pose proof (P_send_personal_message _ Hdis socket_id message w Hw) as H.
    unfold exec, bnd in *. by destruct (send_personal_message _ _ w).
  - pose proof (P_send_to_user _ Hdis username message w Hw) as H.
    unfold exec, bnd in *. by destruct (send_to_user _ _ w).
  - by apply P_broadcast_to_room.
  - by apply P_send_user_list.
Qed.

(** X5.  After any sequence of manager operations from the empty state,
    every room of the directory is stored under its own identifier, no two
    of its member records share a connection id, no two share a username,
    and every record carries the connection id in both [id] and
    [socket_id]. *)
Theorem rooms_hold_distinct_members ops script room_id room :
  rooms (mgr (run_ops ops (initial script))) !! room_id = Some room →
  room_well_formed room_id room.
Proof.
  apply (directory_well_formed_run_ops ops (initial script)).
  intros r room0. simpl. by rewrite lookup_empty.
Qed.

Lemma rooms_hold_distinct_members_witness :
  room_well_formed "r1"
    (Room.mk "r1" [User.mk "A" "alice" "A"; User.mk "B" "bob" "B"]).
Proof.
  apply (rooms_hold_distinct_members
           [Connect ws_a "A"; Connect ws_b "B";
            JoinRoom "A" "r1" "alice"; JoinRoom "B" "r1" "bob"] [] "r1").
  reflexivity.
Defined.

(** ** X6 to X8: what a broadcast does and does not do *)

Lemma rooms_broadcast_to_room room_id message exclude_socket w :
  rooms (mgr (exec (broadcast_to_room room_id message exclude_socket) w))
  = rooms (mgr w).
Proof.
  destruct (broadcast_to_room_spec room_id message exclude_socket w _ eq_refl)
    as (ext & failed & H1 & _).
  by rewrite H1, rooms_reap_all.
Qed.

Lemma rooms_send_user_list room_id w :
  rooms (mgr (exec (send_user_list room_id) w)) = rooms (mgr w).
Proof.
  destruct (send_user_list_spec room_id w _ eq_refl) as (ext & failed & H1 & _).
  by rewrite H1, rooms_reap_all.
Qed.

(** X6.  A broadcast only sends to connections that belong to a member
    record of the addressed room, have a handle in the registry and are not
    the excluded connection; a connection outside the room never gets the
    message. *)
Theorem broadcast_stays_in_room room_id message exclude_socket w x :
  x ∈ delivered_to w (exec (broadcast_to_room room_id message exclude_socket) w) →
  (∃ u, u ∈ members (mgr w) room_id ∧ User.socket_id u = x)
  ∧ is_Some (active_connections (mgr w) !! x)
  ∧ Some x ≠ exclude_socket.
Proof.
  rewrite delivered_to_broadcast. unfold recipients.
  intros (u & -> & Hu)%list_elem_of_fmap.
  apply list_elem_of_filter in Hu as [[Hex Hreg] Hmem].
  split_and!; [by exists u | done | done].
Qed.

Lemma broadcast_stays_in_room_witness :
  let w := alice_and_bob [] in
  ("A" ∈ delivered_to w (exec (broadcast_to_room "r1" hello (Some "B")) w))
  ∧ (∃ u, u ∈ members (mgr w) "r1" ∧ User.socket_id u = "A")
  ∧ is_Some (active_connections (mgr w) !! "A")
  ∧ Some "A" ≠ Some "B".
Proof.
  intros w.
  assert ("A" ∈ delivered_to w (exec (broadcast_to_room "r1" hello (Some "B")) w))
    as Hin by (vm_compute; apply list_elem_of_singleton; reflexivity).
  split; [exact Hin|].
  exact (broadcast_stays_in_room "r1" hello (Some "B") w "A" Hin).
Defined.

(** X7.  Sending never changes the room directory: after a room broadcast,
    a member-list snapshot, a personal message or a unicast by username,
    whatever succeeds or fails, the directory is what it was. *)
Theorem sending_keeps_directory room_id socket_id username message
    exclude_socket w :
  rooms (mgr (exec (broadcast_to_room room_id message exclude_socket) w))
    = rooms (mgr w)
  ∧ rooms (mgr (exec (send_user_list room_id) w)) = rooms (mgr w)
  ∧ rooms (mgr (exec (send_personal_message socket_id message) w)) = rooms (mgr w)
  ∧ rooms (mgr (exec (send_to_user username message) w)) = rooms (mgr w).
Proof.
  split_and!.
  - apply rooms_broadcast_to_room.
  - apply rooms_send_user_list.
  - by apply (P_send_personal_message (λ m, rooms m = rooms (mgr w))).
  - by apply (P_send_to_user (λ m, rooms m = rooms (mgr w))).
Qed.

Lemma active_reap_all_none l x : ∀ m,
  active_connections m !! x = None →
  active_connections (reap_all l m) !! x = None.
Proof.
  apply (P_reap_all (λ m, active_connections m !! x = None)).
  intros s m Hm. simpl. destruct (decide (s = x)) as [->|Hne].
  - apply lookup_delete_eq.
  - by rewrite lookup_delete_ne.
Qed.

Lemma active_reap_all_in l x : ∀ m,
  x ∈ l → active_connections (reap_all l m) !! x = None.
Proof.
  induction l as [|y l IH]; intros m Hx; [by apply elem_of_nil in Hx|].
  unfold reap_all in *. simpl.
  apply elem_of_cons in Hx as [->|Hx]; [|by apply IH].
  apply active_reap_all_none. simpl. apply lookup_delete_eq.
Qed.

Lemma broadcast_loop_failed message exclude_socket us :
  ∀ disconnected_sockets w res w',
    broadcast_loop message exclude_socket us disconnected_sockets w = (res, w') →
    (∀ x, x ∈ disconnected_sockets → x ∈ res)
    ∧ (∀ d, d ∈ new_sends w w' → delivered d = false → to_socket d ∈ res).
Proof.
  induction us as [|user rest IH]; intros dis w res w' E.
  { injection E as <- <-. split; [done|].
    intros d. unfold new_sends. rewrite drop_all. by intros ?%elem_of_nil. }
  simpl in E. case_bool_decide as Hex; [|by apply IH in E].
  unfold bnd at 1, the_manager at 1 in E.
  destruct (active_connections (mgr w) !! User.socket_id user) as [ws|].
  - unfold bnd at 1, send_text at 1 in E.
    set (ok := match wire w with [] => true | b :: _ => b end) in E.
    pose proof E as E'.
    apply broadcast_loop_spec in E' as (ext & failed0 & _ & _ & H3 & _).
    apply IH in E as [Hdis Hnew]. simpl in H3.
    split.
    + intros x Hx. apply Hdis. destruct ok; [done|].
      apply elem_of_app. by left.
    + intros d. rewrite <- app_assoc in H3. rewrite (new_sends_app _ _ _ H3).
      simpl. intros [->|Hd]%elem_of_cons Hfail.
      * simpl in Hfail. rewrite Hfail in Hdis. apply Hdis.
        apply elem_of_app. right. by apply list_elem_of_singleton.
      * apply Hnew; [|done]. unfold new_sends. simpl.
        by rewrite H3, app_assoc, drop_app_length.
  - apply IH in E as [Hdis Hnew]. split; [|done].
    intros x Hx. apply Hdis. apply elem_of_app. by left.
Qed.

Lemma broadcast_to_room_failed room_id message exclude_socket w w' :
  exec (broadcast_to_room room_id message exclude_socket) w = w' →
  ∀ d, d ∈ new_sends w w' → delivered d = false →
       active_connections (mgr w') !! to_socket d = None.
Proof.
  unfold broadcast_to_room, exec, bnd at 1, the_manager.
  destruct (rooms (mgr w) !! room_id) as [room|].
  - unfold bnd.
    destruct (broadcast_loop message exclude_socket (Room.users room) [] w)
      as [dis w1] eqn:E.
    apply broadcast_loop_failed in E as [_ Hnew].
    intros <-. simpl. intros d Hd Hfail. apply active_reap_all_in.
    by apply Hnew.
  - intros <-. simpl. intros d. unfold new_sends. rewrite drop_all.
    by intros ?%elem_of_nil.
Qed.

(** X8.  After a room broadcast, every connection whose send failed is out
    of the registry, and the registry entry of the excluded connection is
    what it was: a broadcast never reaps the connection it excludes. *)
Theorem broadcast_reaps_failed room_id message exclude_socket w :
  let w' := exec (broadcast_to_room room_id message exclude_socket) w in
  (∀ d, d ∈ new_sends w w' → delivered d = false →
        active_connections (mgr w') !! to_socket d = None)
  ∧ (∀ x, exclude_socket = Some x →
          active_connections (mgr w') !! x = active_connections (mgr w) !! x).
Proof.
  intros w'. split.
  - by apply (broadcast_to_room_failed room_id message exclude_socket w).
  - intros x ->.
    destruct (broadcast_to_room_spec room_id message (Some x) w _ eq_refl)
      as (ext & failed & H1 & _ & _ & _ & _ & H6).
    subst w'. rewrite H1. apply active_reap_all.
    intros Hin. rewrite Forall_forall in H6. destruct (H6 _ Hin) as [Hne _]. done.
Qed.

Lemma broadcast_reaps_failed_witness :
  (∃ d, d ∈ new_sends before_failed_send after_failed_send
        ∧ delivered d = false ∧ to_socket d = "A")
  ∧ active_connections (mgr after_failed_send) !! "A" = None.
Proof.
  assert ({| to_socket := "A"; payload := hello; delivered := false |}
          ∈ new_sends before_failed_send after_failed_send) as Hin
    by (vm_compute; apply elem_of_cons; by left).
  split; [eexists; split; [exact Hin | by split]|].
  destruct (broadcast_reaps_failed "r1" hello None before_failed_send) as [H _].
  exact (H _ Hin eq_refl).
Defined.

(** ** X9 and X10: unicast *)

(** X9.  [send_personal_message] returns True only after one delivered send
    to the connection, and then leaves the manager as it was; when it
    returns False nothing was delivered and the connection is not in the
    registry afterwards (it was missing already, or the failed send got it
    disconnected). *)
Theorem send_personal_message_result socket_id message w :
  let w' := exec (send_personal_message socket_id message) w in
  if eval (send_personal_message socket_id message) w
  then mgr w' = mgr w
       ∧ new_sends w w'
         = [ {| to_socket := socket_id; payload := message; delivered := true |} ]
  else active_connections (mgr w') !! socket_id = None
       ∧ Forall (λ d, delivered d = false) (new_sends w w').
Proof.
  unfold send_personal_message, exec, eval, bnd, the_manager, send_text,
    update, ret, new_sends.
  destruct (active_connections (mgr w) !! socket_id) as [ws|] eqn:Hws; simpl.
  - destruct (match wire w with [] => true | b :: _ => b end); simpl.
    + by rewrite drop_app_length.
    + rewrite drop_app_length, lookup_delete_eq. split; [done|].
      by repeat constructor.
  - rewrite drop_all. by split.
Qed.

(** X10.  In every state reached by manager operations (joins under
    non-empty names), a unicast to a username bound to a registered
    connection makes exactly one send, to that connection, and returns its
    outcome; after a delivered send the manager is unchanged, after a failed
    one the connection is out of the registry and the username resolves to
    nothing. *)
Theorem unicast_reaches_binding ops script username socket_id message :
  Forall named ops →
  let w := run_ops ops (initial script) in
  let w' := exec (send_to_user username message) w in
  user_sockets (mgr w) !! username = Some socket_id →
  str_truthy socket_id = true →
  is_Some (active_connections (mgr w) !! socket_id) →
  eval (send_to_user username message) w = next_outcome w
  ∧ new_sends w w'
    = [ {| to_socket := socket_id; payload := message;
           delivered := next_outcome w |} ]
  ∧ (if next_outcome w then mgr w' = mgr w
     else active_connections (mgr w') !! socket_id = None
          ∧ user_sockets (mgr w') !! username = None).
Proof.
  intros Hops w w' Hbound Hs [ws Hws].
  pose proof (names_consistent_run_ops ops _ Hops (names_consistent_initial script))
    as Hn.
  destruct (Hn _ _ Hbound) as [Hback Hu]. fold w in Hback.
  subst w'.
  unfold send_to_user, send_personal_message, exec, eval, bnd, the_manager,
    send_text, update, ret, new_sends, next_outcome.
  rewrite Hbound, Hs, Hws. simpl.
  destruct (wire w) as [|[|] rest]; simpl; rewrite drop_app_length;
    split_and!; try done.
  - apply lookup_delete_eq.
  - rewrite Hback, Hu. apply lookup_delete_eq.
Qed.

Lemma unicast_reaches_binding_witness :
  let w := alice_and_bob [] in
  user_sockets (mgr w) !! "bob" = Some "B"
  ∧ eval (send_to_user "bob" hello) w = true
  ∧ new_sends w (exec (send_to_user "bob" hello) w)
    = [ {| to_socket := "B"; payload := hello; delivered := true |} ].
Proof.
  intros w. split; [reflexivity|].
  destruct (unicast_reaches_binding
              [Connect ws_a "A"; Connect ws_b "B";
               JoinRoom "A" "r1" "alice"; JoinRoom "B" "r1" "bob"] []
              "bob" "B" hello) as (H1 & H2 & _).
  - repeat constructor.
  - reflexivity.
  - reflexivity.
  - vm_compute. eauto.
  - split; [exact H1 | exact H2].
Defined.

(** ** X11 to X13: joining and leaving *)

Lemma members_leave_room socket_id room_id w :
  members (mgr (exec (leave_room socket_id room_id) w)) room_id
  = filter (λ u, User.id u ≠ socket_id) (members (mgr w) room_id).
Proof.
  pose proof (leave_room_spec socket_id room_id w _ eq_refl) as H.
  unfold members at 2.
  destruct (rooms (mgr w) !! room_id) as [room|] eqn:Hroom.
  - cbv zeta in H. destruct H as [failed H]. unfold members. rewrite H. simpl.
    rewrite rooms_reap_all. simpl.
    destruct (filter _ (Room.users room)) as [|u rest].
    + by rewrite lookup_delete_eq.
    + by rewrite lookup_insert_eq.
  - rewrite H. unfold members. by rewrite Hroom.
Qed.

Lemma rooms_leave_room_other socket_id room_id w r :
  r ≠ room_id →
  rooms (mgr (exec (leave_room socket_id room_id) w)) !! r = rooms (mgr w) !! r.
Proof.
  intros Hne.
  pose proof (leave_room_spec socket_id room_id w _ eq_refl) as H.
  destruct (rooms (mgr w) !! room_id) as [room|] eqn:Hroom; [|by rewrite H].
  cbv zeta in H. destruct H as [failed H]. rewrite H. simpl.
  rewrite rooms_reap_all. simpl.
  destruct (filter _ (Room.users room)) as [|u rest].
  - by rewrite lookup_delete_ne, lookup_insert_ne by done.
  - by rewrite lookup_insert_ne by done.
Qed.

Lemma rooms_join_room_other socket_id room_id username w r :
  r ≠ room_id →
  rooms (mgr (exec (join_room socket_id room_id username) w)) !! r
  = rooms (mgr w) !! r.
Proof.
  intros Hne.
  destruct (join_room_spec socket_id room_id username w _ eq_refl)
    as (? & ? & failed1 & failed2 & H1 & _).
  rewrite H1, !rooms_reap_all. simpl. by rewrite lookup_insert_ne by done.
Qed.

(** X11.  [leave_room] removes from the room exactly the member records
    whose id is the leaving connection and keeps the others in order; every
    other room of the directory is left as it was. *)
Theorem leave_room_removes_member socket_id room_id w r :
  let w' := exec (leave_room socket_id room_id) w in
  members (mgr w') room_id
    = filter (λ u, User.id u ≠ socket_id) (members (mgr w) room_id)
  ∧ (r ≠ room_id → rooms (mgr w') !! r = rooms (mgr w) !! r).
Proof.
  split; [apply members_leave_room | apply rooms_leave_room_other].
Qed.

Lemma leave_room_removes_member_witness :
  let w := alice_and_bob [] in
  let w' := exec (leave_room "A" "r1") w in
  members (mgr w') "r1" = [User.mk "B" "bob" "B"]
  ∧ rooms (mgr w') !! "r2" = rooms (mgr w) !! "r2".
Proof.
  cbv zeta.
  destruct (leave_room_removes_member "A" "r1" (alice_and_bob []) "r2") as [H1 H2].
  split; [rewrite H1; reflexivity | apply H2; discriminate].
Defined.

(** X12.  [join_room] touches one room only: every other room of the
    directory keeps its member list, so a connection that joins a second
    room is not taken out of the room it joined before. *)
Theorem join_room_keeps_other_rooms socket_id room_id username w r :
  r ≠ room_id →
  let w' := exec (join_room socket_id room_id username) w in
  rooms (mgr w') !! r = rooms (mgr w) !! r
  ∧ members (mgr w') r = members (mgr w) r.
Proof.
  intros Hne w'. pose proof (rooms_join_room_other socket_id room_id username w r Hne)
    as H.
  split; [done|]. unfold members. subst w'. by rewrite H.
Qed.

Lemma join_room_keeps_other_rooms_witness :
  let w := alice_and_bob [] in
  let w' := exec (join_room "A" "r2" "alice") w in
  members (mgr w') "r2" = [User.mk "A" "alice" "A"]
  ∧ members (mgr w') "r1" = [User.mk "A" "alice" "A"; User.mk "B" "bob" "B"].
Proof.
  cbv zeta. split; [reflexivity|].
  destruct (join_room_keeps_other_rooms "A" "r2" "alice" (alice_and_bob []) "r1")
    as [_ H]; [discriminate|].
  rewrite H. reflexivity.
Defined.

Lemma filter_all {A} (P : A → Prop) `{∀ x, Decision (P x)} (l : list A) :
  Forall P l → filter P l = l.
Proof.
  induction 1 as [|x l Hx Hl IH]; [done|].
  by rewrite filter_cons_True, IH.
Qed.

(** X13.  A join followed by the leave of the same connection is a round
    trip on the member lists: when the room holds no record with the
    joining connection id or the joining username, every room has the member
    list it had before, whatever sends fail in between. *)
Theorem join_then_leave_restores_members socket_id room_id username w r :
  Forall (λ u, User.id u ≠ socket_id ∧ User.username u ≠ username)
         (members (mgr w) room_id) →
  members (mgr (exec (leave_room socket_id room_id)
                  (exec (join_room socket_id room_id username) w))) r
  = members (mgr w) r.
Proof.
  intros Hfresh.
  destruct (decide (r = room_id)) as [->|Hne].
  - rewrite members_leave_room, members_join_room.
    rewrite (filter_all _ _ Hfresh), filter_app.
    rewrite filter_cons_False, filter_nil, app_nil_r by (simpl; intros ?; done).
    apply filter_all. eapply Forall_impl; [exact Hfresh|]. by intros u [? _].
  - unfold members.
    by rewrite rooms_leave_room_other, rooms_join_room_other by done.
Qed.

Lemma join_then_leave_restores_members_witness :
  let w := alice_and_bob [true; true; true; true; false] in
  members (mgr (exec (leave_room "C" "r1") (exec (join_room "C" "r1" "carol") w)))
    "r1"
  = [User.mk "A" "alice" "A"; User.mk "B" "bob" "B"].
Proof.
  cbv zeta.
  rewrite (join_then_leave_restores_members "C" "r1" "carol"
             (alice_and_bob [true; true; true; true; false]) "r1").
  - reflexivity.
  - vm_compute. repeat constructor; discriminate.
Defined.

(** ** X14: what a leave sends *)

Lemma reap_all_set_rooms f l : ∀ m,
  reap_all l (set_rooms f m) = set_rooms f (reap_all l m).
Proof.
  induction l as [|x l IH]; intros m; [done|].
  unfold reap_all in *. simpl. by rewrite <- IH.
Qed.

Lemma leave_room_tail_sent room_id (remaining : list User.t) w2 :
  sent (exec (let* _ := send_user_list room_id in
              match remaining with
              | [] => update (set_rooms (delete room_id))
              | _ :: _ => ret tt
              end) w2)
  = sent (exec (send_user_list room_id) w2).
Proof.
  unfold exec, bnd. destruct (send_user_list room_id w2) as [[] w3].
  by destruct remaining.
Qed.

Lemma broadcast_loop_failed_only message exclude_socket us :
  ∀ disconnected_sockets w res w',
    broadcast_loop message exclude_socket us disconnected_sockets w = (res, w') →
    ∀ x, x ∈ res →
         x ∈ disconnected_sockets
         ∨ active_connections (mgr w) !! x = None
         ∨ ∃ d, d ∈ new_sends w w' ∧ to_socket d = x ∧ delivered d = false.
Proof.
  induction us as [|user rest IH]; intros dis w res w' E x Hx.
  { injection E as <- <-. by left. }
  simpl in E. case_bool_decide as Hex; [|by eapply IH].
  unfold bnd at 1, the_manager at 1 in E.
  destruct (active_connections (mgr w) !! User.socket_id user) as [ws|] eqn:Hws.
  - unfold bnd at 1, send_text at 1 in E.
    set (ok := match wire w with [] => true | b :: _ => b end) in E.
    pose proof E as E'.
    apply broadcast_loop_spec in E' as (ext & failed0 & _ & _ & H3 & _).
    simpl in H3. rewrite <- app_assoc in H3.
    rewrite (new_sends_app _ _ _ H3).
    destruct (IH _ _ _ _ E x Hx) as [Hdis|[Hnone|(d & Hd & Hto & Hfail)]].
    + destruct ok; [by left|].
      apply elem_of_app in Hdis as [Hdis|Hnew]; [by left|].
      apply list_elem_of_singleton in Hnew as ->.
      right. right. eexists. split; [apply elem_of_cons; by left|]. by split.
    + right. by left.
    + right. right. exists d. split; [|done].
      apply elem_of_cons. right.
      unfold new_sends in Hd. simpl in Hd.
      by rewrite H3, app_assoc, drop_app_length in Hd.
  - destruct (IH _ _ _ _ E x Hx) as [Hdis|Hrest]; [|by right].
    apply elem_of_app in Hdis as [Hdis|Hnew]; [by left|].
    apply list_elem_of_singleton in Hnew as ->. right. by left.
Qed.

Lemma broadcast_to_room_reaped room_id message exclude_socket w w' :
  exec (broadcast_to_room room_id message exclude_socket) w = w' →
  ∃ failed,
    mgr w' = reap_all failed (mgr w)
    ∧ ∀ x, x ∈ failed →
           active_connections (mgr w) !! x = None
           ∨ ∃ d, d ∈ new_sends w w' ∧ to_socket d = x ∧ delivered d = false.
Proof.
  unfold broadcast_to_room, exec, bnd at 1, the_manager.
  destruct (rooms (mgr w) !! room_id) as [room|].
  - unfold bnd.
    destruct (broadcast_loop message exclude_socket (Room.users room) [] w)
      as [dis w1] eqn:E.
    pose proof E as E'.
    apply broadcast_loop_spec in E' as (ext & failed0 & _ & H2 & _).
    intros <-. exists dis. simpl. rewrite H2. split; [done|].
    intros x Hx.
    destruct (broadcast_loop_failed_only _ _ _ _ _ _ _ E x Hx)
      as [Hnil|Hrest]; [by apply elem_of_nil in Hnil | done].
  - intros <-. exists []. split; [done|]. by intros x ?%elem_of_nil.
Qed.

(** X14.  [leave_room] on a room of the directory first tells the members
    that stay: when the connection had a member record and still carries a
    non-empty name, the member-left notice with that name goes to every
    remaining member in the registry; otherwise (not a member, or already
    disconnected) no notice is sent.  Then the snapshot of the remaining
    members is sent: it reaches every remaining member that has a handle in
    the registry and whose notice, if any, was delivered; the only members
    left out are those without a handle and those whose notice failed. *)
Theorem leave_room_traffic socket_id room_id room w :
  rooms (mgr w) !! room_id = Some room →
  leave_trace socket_id room_id room w.
Proof.
  intros Hroom. unfold leave_trace. cbv zeta.
  set (remaining := filter (λ u, User.id u ≠ socket_id) (Room.users room)).
  set (name := socket_users (mgr w) !! socket_id).
  set (announced := bool_decide _ && opt_truthy name).
  assert (∀ (notices : list Delivery) (failed1 : list string),
            (∀ x, x ∈ failed1 →
                  active_connections (mgr w) !! x = None
                  ∨ ∃ d, d ∈ notices ∧ to_socket d = x ∧ delivered d = false) →
            ∀ u, u ∈ remaining →
                 is_Some (active_connections (mgr w) !! User.socket_id u) →
                 (∀ d, d ∈ notices → to_socket d = User.socket_id u →
                       delivered d = true) →
                 User.socket_id u
                 ∈ recipients (reap_all failed1 (mgr w)) None remaining)
    as Hreach.
  { intros notices failed1 Hfailed u Hu Hreg Hok. unfold recipients.
    apply list_elem_of_fmap_2. apply list_elem_of_filter. split; [|done].
    split; [done|]. rewrite active_reap_all; [done|].
    intros Hin. destruct (Hfailed _ Hin) as [Hnone|(d & Hd & Hto & Hfail)].
    - rewrite Hnone in Hreg. by destruct Hreg.
    - rewrite (Hok d Hd Hto) in Hfail. discriminate. }
  unfold leave_room, exec. unfold bnd at 1, the_manager at 1.
  rewrite Hroom. cbv zeta. fold remaining. fold name.
  unfold bnd at 1, update at 1.
  set (m1 := set_rooms _ (mgr w)).
  set (w1 := Build_World m1 (wire w) (sent w)).
  assert (members m1 room_id = remaining) as Hmem.
  { unfold members, m1. simpl. by rewrite lookup_insert_eq. }
  unfold bnd at 1. fold announced.
  assert (∀ (c : M unit) notices failed1,
            mgr (exec c w1) = reap_all failed1 m1 →
            sent (exec c w1) = sent w ++ notices →
            ∃ snapshot,
              new_sends w
                (let '(_, w2) := c w1 in
                 bnd (send_user_list room_id)
                   (λ _, match remaining with
                         | [] => update (set_rooms (delete room_id))
                         | _ :: _ => ret tt
                         end) w2).2
              = notices ++ snapshot
              ∧ to_socket <$> snapshot
                = recipients (reap_all failed1 (mgr w)) None remaining
              ∧ Forall (λ d, payload d = online_users remaining) snapshot)
    as Htail.
  { intros c notices failed1 Hm Hs. unfold exec in Hm, Hs.
    destruct (c w1) as [[] w2]. simpl in Hm, Hs.
    pose proof (leave_room_tail_sent room_id remaining w2) as Hsent.
    unfold exec in Hsent.
    destruct (send_user_list_spec room_id w2 _ eq_refl)
      as (snapshot & failed2 & _ & B2 & _ & B4 & B5).
    unfold exec in B2. rewrite Hm, members_reap_all, Hmem in B4, B5.
    exists snapshot. split_and!; [| |done].
    - apply new_sends_app. by rewrite Hsent, B2, Hs, app_assoc.
    - rewrite B4. unfold m1. by rewrite reap_all_set_rooms. }
  destruct announced.
  - destruct (broadcast_to_room_spec room_id
                (user_left (default "" name)) None w1 _ eq_refl)
      as (notices & failed0 & _ & A2 & _ & A4 & A5 & _).
    destruct (broadcast_to_room_reaped room_id
                (user_left (default "" name)) None w1 _ eq_refl)
      as (failed1 & A1 & Hfailed).
    change (mgr w1) with m1 in A1, A4. change (sent w1) with (sent w) in A2.
    rewrite Hmem in A4.
    assert (new_sends w1
              (exec (broadcast_to_room room_id
                       (user_left (default "" name)) None) w1) = notices)
      as Hnew by (by apply new_sends_app).
    rewrite Hnew in Hfailed.
    change (active_connections (mgr w1)) with (active_connections (mgr w))
      in Hfailed.
    destruct (Htail _ notices failed1 A1 A2) as (snapshot & T1 & T2 & T3).
    exists notices, snapshot, failed1. split_and!; try done.
    rewrite T2. by eapply Hreach.
  - destruct (Htail (ret tt) [] [] eq_refl) as (snapshot & T1 & T2 & T3).
    { unfold exec, ret. simpl. by rewrite app_nil_r. }
    exists [], snapshot, []. split_and!; try done.
    + by intros x ?%elem_of_nil.
    + rewrite T2. eapply Hreach. by intros x ?%elem_of_nil.
Qed.

Lemma leave_room_traffic_witness :
  rooms (mgr (alice_and_bob [])) !! "r1"
    = Some (Room.mk "r1" [User.mk "A" "alice" "A"; User.mk "B" "bob" "B"])
  ∧ leave_trace "B" "r1"
      (Room.mk "r1" [User.mk "A" "alice" "A"; User.mk "B" "bob" "B"])
      (alice_and_bob []).
Proof.
  split; [reflexivity|].
  exact (leave_room_traffic "B" "r1"
           (Room.mk "r1" [User.mk "A" "alice" "A"; User.mk "B" "bob" "B"])
           (alice_and_bob []) eq_refl).
Defined.

(** ** X15 and X16: the disconnect branch *)

Lemma on_disconnect_clean socket_id room_id w :
  let m := mgr (exec (on_disconnect socket_id room_id) w) in
  active_connections m !! socket_id = None
  ∧ socket_rooms m !! socket_id = None
  ∧ opt_truthy (socket_users m !! socket_id) = false
  ∧ ∀ u, u ∈ members m room_id → User.id u ≠ socket_id.
Proof.
  pose proof (members_leave_room socket_id room_id w) as Hmem.
  unfold on_disconnect, exec, bnd, update in *.
  destruct (leave_room socket_id room_id w) as [[] w1]. simpl in *.
  split_and!.
  - apply lookup_delete_eq.
  - apply lookup_delete_eq.
  - destruct (opt_truthy (socket_users (mgr w1) !! socket_id)) eqn:E; [|done].
    by rewrite lookup_delete_eq.
  - unfold members in *. simpl. rewrite Hmem.
    by intros u [? _]%list_elem_of_filter.
Qed.

(** X15.  The disconnect branch of the endpoint ([leave_room], then
    [disconnect]), started in any state of the manager and run without
    another coroutine running during its awaits, leaves the connection out
    of the registry, without a room entry, without a non-empty name, and
    without a member record in the room of its URL. *)
Theorem disconnect_branch_cleans_up socket_id room_id w :
  let m := mgr (exec (on_disconnect socket_id room_id) w) in
  active_connections m !! socket_id = None
  ∧ socket_rooms m !! socket_id = None
  ∧ opt_truthy (socket_users m !! socket_id) = false
  ∧ ∀ u, u ∈ members m room_id → User.id u ≠ socket_id.
Proof. apply on_disconnect_clean. Qed.

(** X16.  A webrtc_signal message whose data is missing or is not a JSON
    object raises in the handler before anything is sent, whatever its
    sender and target are; the receive loop then drops the rest of the
    inbox and goes through the disconnect branch. *)
Theorem signal_without_object_ends_session websocket socket_id room_id
    sender target data rest w :
  (∀ fields, data ≠ Some (JObj fields)) →
  handle_event websocket socket_id room_id (webrtc_signal sender target data) w
    = (Raise, w)
  ∧ exec (receive_loop websocket socket_id room_id
            (webrtc_signal sender target data :: rest)) w
    = exec (on_disconnect socket_id room_id) w.
Proof.
  intros Hdata.
  assert (handle_event websocket socket_id room_id
            (webrtc_signal sender target data) w = (Raise, w)) as H.
  { simpl. destruct data as [[]|]; try done. by destruct (Hdata l). }
  split; [done|].
  unfold exec. cbn [receive_loop]. unfold bnd at 1. by rewrite H.
Qed.

Lemma signal_without_object_ends_session_witness :
  handle_event ws_a "A" "r1"
    (webrtc_signal (Some "alice") (Some "bob") (Some (JStr "offer")))
    (alice_and_bob [])
  = (Raise, alice_and_bob [])
  ∧ exec (receive_loop ws_a "A" "r1"
            [webrtc_signal (Some "alice") (Some "bob") (Some (JStr "offer"));
             chat_message (Some "alice") (Some (JStr "hi")) None])
         (alice_and_bob [])
    = exec (on_disconnect "A" "r1") (alice_and_bob []).
Proof.
  apply (signal_without_object_ends_session ws_a "A" "r1" (Some "alice")
           (Some "bob") (Some (JStr "offer"))
           [chat_message (Some "alice") (Some (JStr "hi")) None]
           (alice_and_bob [])).
  discriminate.
Defined.

(** ** X17: the normalised size *)

(** X17.  The size a transfer request forwards is never below zero and
    always passes the number test of the handler, and normalising it again
    changes nothing. *)
Theorem normalize_file_size_sound file_size :
  below_zero (normalize_file_size file_size) = false
  ∧ is_int_or_float (normalize_file_size file_size) = true
  ∧ normalize_file_size (normalize_file_size file_size)
    = normalize_file_size file_size.
Proof.
  destruct file_size as [| b | z | f | s | l | l]; try by split_and!.
  - rewrite normalize_file_size_int. case_bool_decide as Hz.
    + by split_and!.
    + split_and!; [|done|].
      * simpl. by rewrite bool_decide_eq_false_2.
      * rewrite normalize_file_size_int. by rewrite bool_decide_eq_false_2.
  - rewrite normalize_file_size_float.
    destruct (PrimFloat.ltb f 0%float) eqn:Hf.
    + by split_and!.
    + split_and!; [done..|]. rewrite normalize_file_size_float. by rewrite Hf.
Qed.

(** ** X18: only connect registers *)

(** X18.  No manager operation other than [connect] adds a connection to
    the registry: after any sequence of the other operations, every
    connection in the registry was in it before. *)
Theorem registry_grows_only_by_connect ops w socket_id :
  Forall (λ o, is_connect o = false) ops →
  is_Some (active_connections (mgr (run_ops ops w)) !! socket_id) →
  is_Some (active_connections (mgr w) !! socket_id).
Proof.
  intros Hops.
  apply (P_run_ops
           (λ m, is_Some (active_connections m !! socket_id) →
                 is_Some (active_connections (mgr w) !! socket_id))
           (λ o, is_connect o = false)); try done.
  intros s m Hm. simpl. intros Hs. apply Hm.
  destruct (decide (s = socket_id)) as [->|Hne].
  - rewrite lookup_delete_eq in Hs. by destruct Hs.
  - by rewrite lookup_delete_ne in Hs.
Qed.

Lemma registry_grows_only_by_connect_witness :
  is_Some (active_connections
             (mgr (run_ops [JoinRoom "A" "r2" "alice"; LeaveRoom "B" "r1";
                            BroadcastToRoom "r1" hello None]
                     (alice_and_bob []))) !! "A")
  ∧ is_Some (active_connections (mgr (alice_and_bob [])) !! "A").
Proof.
  assert (is_Some (active_connections
             (mgr (run_ops [JoinRoom "A" "r2" "alice"; LeaveRoom "B" "r1";
                            BroadcastToRoom "r1" hello None]
                     (alice_and_bob []))) !! "A")) as H
    by (vm_compute; eauto).
  split; [exact H|].
  apply (registry_grows_only_by_connect
           [JoinRoom "A" "r2" "alice"; LeaveRoom "B" "r1";
            BroadcastToRoom "r1" hello None] (alice_and_bob []) "A");
    [repeat constructor | exact H].
Defined.

(** ** X19: whole sessions keep the invariants *)

Section session_invariant.
Variable P : ConnectionManager → Prop.
Hypothesis P_disconnect : ∀ socket_id m, P m → P (disconnect socket_id m).
Hypothesis P_connect : ∀ websocket socket_id w,
  P (mgr w) → P (mgr (exec (connect websocket socket_id) w)).
Hypothesis P_join_room : ∀ socket_id room_id username w,
  str_truthy username = true →
  P (mgr w) → P (mgr (exec (join_room socket_id room_id username) w)).
Hypothesis P_leave_room : ∀ socket_id room_id w,
  P (mgr w) → P (mgr (exec (leave_room socket_id room_id) w)).

Lemma P_unicast_then_reply websocket socket_id username message notice w :
  P (mgr w) →
  P (mgr (exec (let* success := send_to_user username message in
                if success then ret Continue
                else reply websocket socket_id notice) w)).
Proof.
  intros Hw.
  pose proof (P_send_to_user _ P_disconnect username message w Hw) as H.
  unfold exec, bnd in *.
  destruct (send_to_user username message w) as [[|] w1]; [done|].
  by rewrite reply_spec.
Qed.

Lemma P_handle_event websocket socket_id room_id ev w :
  P (mgr w) → P (mgr (exec (handle_event websocket socket_id room_id ev) w)).
Proof.
  intros Hw. destruct ev as [u | u m t | s t d | s t fn fs ft | s t a fn |].
  - simpl. destruct (opt_truthy u) eqn:Hu; [|done].
    destruct u as [u|]; [|done]. simpl in Hu.
    pose proof (P_join_room socket_id room_id u w Hu Hw) as H.
    unfold exec, bnd in *. change (the (Some u)) with u.
    destruct (join_room socket_id room_id u w) as [[] w1].
    by rewrite reply_spec.
  - simpl. destruct (opt_truthy u && get_truthy m); [|done].
    rewrite exec_then_ret. by apply P_broadcast_to_room.
  - unfold handle_event. destruct d as [[]|]; try done.
    destruct (opt_truthy s && opt_truthy t && get_truthy (Some (JObj l)));
      [|done].
    by apply P_unicast_then_reply.
  - unfold handle_event. destruct (negb (opt_truthy s && opt_truthy t)).
    + unfold exec. by rewrite reply_spec.
    + by apply P_unicast_then_reply.
  - unfold handle_event. destruct (opt_truthy s && opt_truthy t); [|done].
    rewrite exec_then_ret. by apply P_send_to_user.
  - done.
Qed.

Lemma P_on_disconnect socket_id room_id w :
  P (mgr w) → P (mgr (exec (on_disconnect socket_id room_id) w)).
Proof.
  intros Hw. pose proof (P_leave_room socket_id room_id w Hw) as H.
  unfold on_disconnect, exec, bnd, update in *.
  destruct (leave_room socket_id room_id w) as [[] w1]. simpl.
  by apply P_disconnect.
Qed.

Lemma P_receive_loop websocket socket_id room_id inbox :
  ∀ w, P (mgr w) →
       P (mgr (exec (receive_loop websocket socket_id room_id inbox) w)).
Proof.
  induction inbox as [|ev rest IH]; intros w Hw.
  { by apply P_on_disconnect. }
  pose proof (P_handle_event websocket socket_id room_id ev w Hw) as H.
  unfold exec in *. cbn [receive_loop]. unfold bnd at 1.
  destruct (handle_event websocket socket_id room_id ev w) as [[|] w1].
  - by apply IH.
  - by apply P_on_disconnect.
Qed.

Lemma P_websocket_endpoint websocket socket_id room_id inbox w :
  P (mgr w) →
  P (mgr (exec (websocket_endpoint websocket socket_id room_id inbox) w)).
Proof.
  intros Hw. pose proof (P_connect websocket socket_id w Hw) as H.
  unfold websocket_endpoint, exec, bnd in *.
  destruct (connect websocket socket_id w) as [[] w1].
  by apply P_receive_loop.
Qed.
End session_invariant.

(** X19.  A whole session of the endpoint (connect, any received messages
    with any send failures, then the disconnect branch) keeps the four
    invariants of the manager: rooms in the directory have members; rooms
    are stored under their identifier with distinct members; usernames
    resolve to connections that carry them; a connection has a name exactly
    when it has a room. *)
Theorem session_keeps_invariants websocket socket_id room_id inbox w :
  rooms_nonempty (mgr w) → directory_well_formed (mgr w) →
  names_consistent (mgr w) → presence_consistent (mgr w) →
  let m := mgr (exec (websocket_endpoint websocket socket_id room_id inbox) w) in
  rooms_nonempty m ∧ directory_well_formed m
  ∧ names_consistent m ∧ presence_consistent m.
Proof.
  intros H1 H2 H3 H4 m. subst m. split_and!.
  - apply P_websocket_endpoint; try done.
    + intros. by apply rooms_nonempty_join_room.
    + intros. by apply rooms_nonempty_leave_room.
  - apply P_websocket_endpoint; try done.
    + intros. by apply directory_well_formed_join_room.
    + intros. by apply directory_well_formed_leave_room.
  - apply P_websocket_endpoint; try done.
    + apply names_consistent_disconnect.
    + intros. by apply names_consistent_join_room.
    + intros. by apply names_consistent_leave_room.
  - apply P_websocket_endpoint; try done.
    + apply presence_consistent_disconnect.
    + intros s r u w0 Hu Hw0.
      apply (P_run_op presence_consistent named
               presence_consistent_disconnect) with (o := JoinRoom s r u);
        try done.
      intros. by apply presence_consistent_bind.
    + intros s r w0 Hw0.
      apply (P_run_op presence_consistent named
               presence_consistent_disconnect) with (o := LeaveRoom s r);
        try done.
      intros. by apply presence_consistent_bind.
Qed.

Lemma session_keeps_invariants_witness :
  let m := mgr (exec (websocket_endpoint ws_a "A" "r1"
                        [join_room_event (Some "alice");
                         webrtc_signal (Some "alice") (Some "bob") None])
                  (initial [true; false])) in
  rooms_nonempty m ∧ directory_well_formed m
  ∧ names_consistent m ∧ presence_consistent m.
Proof.
  apply (session_keeps_invariants ws_a "A" "r1"
           [join_room_event (Some "alice");
            webrtc_signal (Some "alice") (Some "bob") None]
           (initial [true; false])).
  - apply rooms_nonempty_initial.
  - intros r room. simpl. by rewrite lookup_empty.
  - apply names_consistent_initial.
  - split; intros ? ?; simpl; by rewrite lookup_empty.
Defined.

(** ** X20: a join that goes through *)

(** X20.  When every send succeeds and every member of the room has a
    handle in the registry, the Join handler goes on with the loop and
    leaves the manager with the joining connection fully present: its
    username resolves to it, it carries the username and the room, and its
    member record is in the room. *)
Theorem join_establishes_presence websocket socket_id room_id username w :
  str_truthy username = true →
  healthy w →
  all_registered
    (join_room_add_member socket_id room_id username
       (join_room_bind socket_id room_id username (mgr w)))
    None
    (members (join_room_add_member socket_id room_id username
                (join_room_bind socket_id room_id username (mgr w))) room_id) →
  let ev := join_room_event (Some username) in
  let m := mgr (exec (handle_event websocket socket_id room_id ev) w) in
  eval (handle_event websocket socket_id room_id ev) w = Continue
  ∧ user_sockets m !! username = Some socket_id
  ∧ socket_users m !! socket_id = Some username
  ∧ socket_rooms m !! socket_id = Some room_id
  ∧ User.mk socket_id username socket_id ∈ members m room_id.
Proof.
  intros Hu Hw Hreg ev m. subst ev m.
  pose proof (join_room_quiet socket_id room_id username w Hw Hreg) as Hm.
  destruct (join_room_spec socket_id room_id username w _ eq_refl)
    as (joined & snapshot & ? & ? & _ & _ & Hwire & _).
  pose proof (healthy_drop _ _ _ Hwire Hw) as Hw1.
  unfold handle_event, exec, eval in *.
  change (opt_truthy (Some username)) with (str_truthy username).
  rewrite Hu. change (the (Some username)) with username. unfold bnd.
  destruct (join_room socket_id room_id username w) as [[] w1].
  simpl in Hm, Hw1. rewrite reply_spec. simpl. rewrite Hm.
  assert (next_outcome w1 = true) as ->.
  { unfold next_outcome, healthy in *. destruct (wire w1); [done|].
    by inversion Hw1. }
  split_and!; [done | | | |].
  - simpl. by rewrite lookup_insert_eq.
  - simpl. by rewrite lookup_insert_eq.
  - simpl. by rewrite lookup_insert_eq.
  - rewrite members_add_member. apply elem_of_app. right.
    by apply list_elem_of_singleton.
Qed.

Lemma join_establishes_presence_witness :
  let w := alice_and_bob [] in
  let m := mgr (exec (handle_event ws_a "A" "r1"
                        (join_room_event (Some "carol"))) w) in
  eval (handle_event ws_a "A" "r1" (join_room_event (Some "carol"))) w = Continue
  ∧ user_sockets m !! "carol" = Some "A"
  ∧ socket_users m !! "A" = Some "carol"
  ∧ socket_rooms m !! "A" = Some "r1"
  ∧ User.mk "A" "carol" "A" ∈ members m "r1".
Proof.
  apply (join_establishes_presence ws_a "A" "r1" "carol" (alice_and_bob [])).
  - reflexivity.
  - constructor.
  - vm_compute. repeat constructor; intros _; eauto.
Defined.
